(** * S3 backup cleaner: retention evaluation, batched deletion, orchestration

    A shallow embedding of [src/lambda_function.py] and the properties of its
    retention evaluator ([get_objects_to_delete]), its batch deleter
    ([delete_objects]), its folder processor and its Lambda entry point.

    Conventions of the embedding:
    - Python integers are [Z]; lengths and counters, which the code only ever
      builds from [len] and [+=], are [nat].
    - An aware [datetime] is the number of microseconds since the epoch (the
      resolution of Python's [datetime]); comparison and subtraction of aware
      datetimes act on that instant.
    - Values that come out of the JSON configuration are dynamically typed:
      the code stores them in the policy unchecked, so the embedding keeps
      them as [value] and raises [TypeError] where the interpreter would.
    - The storage client, the JSON decoder and the clock are external: they
      are parameters of the development. Every storage call is appended to a
      trace, which makes "no call was issued" a statement about the trace.
    - Logging has no influence on any result and is left out. *)

From Stdlib Require Import ZArith List String Ascii Bool Arith Lia.
From Stdlib Require Import Permutation Sorted DecimalString.
Import ListNotations.

Local Open Scope string_scope.
Local Open Scope list_scope.

(** ** Python values, exceptions *)

(** A Python [float] by its exact value: [FFinite m e] is [m * 2^e]. *)
Inductive pyfloat : Type :=
| FNan
| FInf (negative : bool)
| FFinite (m e : Z).

Set Warnings "-register-all".

(** The values [json.loads] can produce. A [VDict] is read by first match,
    so any association list denotes a dictionary. *)
Inductive value : Type :=
| VNone
| VBool (b : bool)
| VInt (z : Z)
| VFloat (f : pyfloat)
| VStr (s : string)
| VList (l : list value)
| VDict (items : list (string * value)).

(** The exceptions (all subclasses of [Exception]) that reach the code. *)
Inductive exn : Type :=
| ClientError (msg : string)
| JSONDecodeError (msg : string)
| KeyError (key : string)
| TypeError (msg : string)
| OtherException (msg : string).

(** [str(e)]; a [KeyError] prints the [repr] of the missing key. *)
Definition str (e : exn) : string :=
  match e with
  | ClientError msg => msg
  | JSONDecodeError msg => msg
  | KeyError key => "'" ++ key ++ "'"
  | TypeError msg => msg
  | OtherException msg => msg
  end.

Inductive result (A : Type) : Type :=
| Ok (a : A)
| Raise (e : exn).
Arguments Ok {A} a.
Arguments Raise {A} e.

Definition rbind {A B} (r : result A) (k : A -> result B) : result B :=
  match r with
  | Ok a => k a
  | Raise e => Raise e
  end.

Declare Scope result_scope.
Delimit Scope result_scope with result.
Notation "'let?' x ':=' r 'in' k" := (rbind r (fun x => k))
  (at level 10, x name, r at level 100, k at level 200) : result_scope.

Definition type_name (v : value) : string :=
  match v with
  | VNone => "NoneType"
  | VBool _ => "bool"
  | VInt _ => "int"
  | VFloat _ => "float"
  | VStr _ => "str"
  | VList _ => "list"
  | VDict _ => "dict"
  end.

(** Exact comparison of an [int] with a [float], as CPython does it;
    [None] when the float is a NaN (every ordering test is then false). *)
Definition compare_int_float (a : Z) (f : pyfloat) : option comparison :=
  match f with
  | FNan => None
  | FInf negative => Some (if negative then Gt else Lt)
  | FFinite m e =>
      Some (if (0 <=? e)%Z then (a ?= m * 2 ^ e)%Z
            else (a * 2 ^ (- e) ?= m)%Z)
  end.

(** [a ?= v] for an [int] [a] against a number; [None] on a NaN,
    [TypeError] on anything that is not a number. *)
Definition compare_int (op : string) (a : Z) (v : value)
  : result (option comparison) :=
  match v with
  | VInt z => Ok (Some (a ?= z)%Z)
  | VBool b => Ok (Some (a ?= (if b then 1 else 0))%Z)
  | VFloat f => Ok (compare_int_float a f)
  | _ => Raise (TypeError ("'" ++ op ++ "' not supported between instances of 'int' and '"
                           ++ type_name v ++ "'"))
  end.

(** [a < v] *)
Definition py_lt (a : Z) (v : value) : result bool :=
  (let? c := compare_int "<" a v in
   Ok (match c with Some Lt => true | _ => false end))%result.

(** [a > v] *)
Definition py_gt (a : Z) (v : value) : result bool :=
  (let? c := compare_int ">" a v in
   Ok (match c with Some Gt => true | _ => false end))%result.

(** ** Data model *)

(** [class BackupRetentionPolicy]: the constructor stores what it is given. *)
Record BackupRetentionPolicy : Type := {
  folder : value;
  days_to_keep : value;
  min_backups_to_keep : value
}.

(** [BackupRetentionPolicy(folder, days_to_keep, min_backups_to_keep)] with
    the two integers its signature asks for. *)
Definition retention_policy (f : value) (d k : Z) : BackupRetentionPolicy :=
  {| folder := f; days_to_keep := VInt d; min_backups_to_keep := VInt k |}.

(** The dictionaries [{'Key': ..., 'LastModified': ...}] that
    [list_backup_objects] builds. *)
Record BackupObject : Type := {
  Key : string;
  LastModified : Z
}.

(** ** Retention evaluator *)

Definition microseconds_per_day : Z := 86400 * 1000000.

(** [(now - obj['LastModified']).days]: a [timedelta] is normalised with
    [0 <= seconds < 86400], so [.days] is the floor of the quotient. *)
Definition age_days (now : Z) (obj : BackupObject) : Z :=
  ((now - LastModified obj) / microseconds_per_day)%Z.

(** [sorted(objects, key=lambda x: x['LastModified'], reverse=True)].
    Python's sort is stable also under [reverse=True]: objects with equal
    timestamps keep their input order. A stable sort is determined by that,
    so insertion from the right computes the same list. *)
Fixpoint insert_newest_first (x : BackupObject) (l : list BackupObject)
  : list BackupObject :=
  match l with
  | [] => [x]
  | y :: l' =>
      if (LastModified y <=? LastModified x)%Z then x :: l
      else y :: insert_newest_first x l'
  end.

Definition sorted_objects (objects : list BackupObject) : list BackupObject :=
  fold_right insert_newest_first [] objects.

(** The loop [for idx, obj in enumerate(sorted_objects)], from index [idx]
    on, with the list [to_delete] built so far. *)
Fixpoint retention_loop (now : Z) (policy : BackupRetentionPolicy)
    (idx : nat) (objs : list BackupObject) (to_delete : list string)
  : result (list string) :=
  match objs with
  | [] => Ok to_delete
  | obj :: rest =>
      (let? within_minimum := py_lt (Z.of_nat idx) (min_backups_to_keep policy) in
       if within_minimum : bool then
         retention_loop now policy (S idx) rest to_delete
       else
         let? too_old := py_gt (age_days now obj) (days_to_keep policy) in
         if too_old : bool then
           retention_loop now policy (S idx) rest (to_delete ++ [Key obj])
         else
           retention_loop now policy (S idx) rest to_delete)%result
  end.

(** [S3BackupCleaner.get_objects_to_delete]; [now] is the value of
    [datetime.now(timezone.utc)] read inside the method. *)
Definition get_objects_to_delete (now : Z) (objects : list BackupObject)
    (policy : BackupRetentionPolicy) : result (list string) :=
  match objects with
  | [] => Ok []
  | _ :: _ => retention_loop now policy 0 (sorted_objects objects) []
  end.

(** ** Storage client and effects *)

(** One page of [list_objects_v2]: the ['Contents'] key may be absent. *)
Record Page : Type := {
  Contents : option (list BackupObject)
}.

(** An entry of ['Errors'] in a [delete_objects] response. *)
Record DeleteError : Type := {
  ErrorKey : string;
  Code : string;
  Message : string
}.

(** A [delete_objects] response: ['Deleted'] and ['Errors'] may each be
    absent; a ['Deleted'] entry is the dictionary [{'Key': key}]. *)
Record DeleteResponse : Type := {
  Deleted : option (list string);
  Errors : option (list DeleteError)
}.

(** The calls made on the module-level [s3_client]. *)
Inductive call : Type :=
| ListObjectsV2 (bucket : string) (prefix : value)
| DeleteObjects (bucket : string) (keys : list string)
| GetObject (bucket key : string).

Definition trace : Type := list call.

(** The storage service as seen by the code: what a call answers, given
    the calls made before it. [paginate] stands for iterating the whole
    paginator (its pages, or the exception that interrupts the iteration);
    [get_object] for [response['Body'].read().decode('utf-8')]. *)
Record S3Client : Type := {
  paginate : trace -> string -> value -> result (list Page);
  delete_objects_call : trace -> string -> list string -> result DeleteResponse;
  get_object : trace -> string -> string -> result string
}.

(** Computations that call the storage service and may raise. The trace
    survives an exception: the calls made before it were made. *)
Definition M (A : Type) : Type := trace -> result A * trace.

Definition ret {A} (a : A) : M A := fun tr => (Ok a, tr).

Definition bind {A B} (m : M A) (k : A -> M B) : M B :=
  fun tr =>
    match m tr with
    | (Ok a, tr') => k a tr'
    | (Raise e, tr') => (Raise e, tr')
    end.

Definition lift {A} (r : result A) : M A := fun tr => (r, tr).

Declare Scope M_scope.
Delimit Scope M_scope with M.
Notation "x <- m ;; k" := (bind m (fun x => k))
  (at level 61, m at next level, right associativity) : M_scope.
Notation "' pat <- m ;; k" := (bind m (fun x => match x with pat => k end))
  (at level 61, pat pattern, m at next level, right associativity) : M_scope.

(** ** Python helpers *)

(** [s.endswith(suffix)] *)
Definition endswith (s suffix : string) : bool :=
  (String.length suffix <=? String.length s)%nat
  && String.eqb (substring (String.length s - String.length suffix)
                           (String.length suffix) s) suffix.

(** [s[n:]] *)
Fixpoint drop (n : nat) (s : string) : string :=
  match n, s with
  | O, _ => s
  | S n', String _ s' => drop n' s'
  | S _, EmptyString => EmptyString
  end.

(** [s.split('/', 1)]: the text before the first ['/'] and, when there is
    one, the text after it. *)
Fixpoint split_slash (s : string) : string * option string :=
  match s with
  | EmptyString => (EmptyString, None)
  | String c s' =>
      if Ascii.eqb c "/"
      then (EmptyString, Some s')
      else let (head, tail) := split_slash s' in (String c head, tail)
  end.

(** [d.get(key)] on a dictionary *)
Fixpoint dict_get (key : string) (items : list (string * value)) : option value :=
  match items with
  | [] => None
  | (k, v) :: rest => if String.eqb k key then Some v else dict_get key rest
  end.

(** [range(0, stop, step)] for a positive [step] *)
Definition py_range (stop step : nat) : list nat :=
  map (fun j => j * step) (seq 0 ((stop + step - 1) / step)).

(** [l[i:j]] for [i <= j] *)
Definition slice {A} (l : list A) (i j : nat) : list A :=
  firstn (j - i) (skipn i l).

(** [not s] for [s = os.environ.get(...)]: absent or empty *)
Definition not_set (s : option string) : bool :=
  match s with
  | None => true
  | Some EmptyString => true
  | Some _ => false
  end.

(** [needle in s] for two strings *)
Definition contains (needle s : string) : bool :=
  match index 0 needle s with
  | Some _ => true
  | None => false
  end.

(** The keys of a dictionary, each once, in order of first occurrence. *)
Fixpoint dict_keys (items : list (string * value)) : list string :=
  match items with
  | [] => []
  | (k, _) :: rest =>
      k :: filter (fun k' => negb (String.eqb k' k)) (dict_keys rest)
  end.

(** The [TypeError] messages below follow CPython 3.11; no statement
    depends on their wording. *)

(** ['retention_policies' in v] *)
Definition py_in (key : string) (v : value) : result bool :=
  match v with
  | VDict items =>
      Ok (match dict_get key items with Some _ => true | None => false end)
  | VList l =>
      Ok (existsb (fun x => match x with VStr s => String.eqb s key | _ => false end) l)
  | VStr s => Ok (contains key s)
  | _ => Raise (TypeError ("argument of type '" ++ type_name v ++ "' is not iterable"))
  end.

(** The [TypeError] of [v[key]] when [v] is not a dictionary and [key] is
    a string. *)
Definition subscript_error (v : value) : exn :=
  match v with
  | VList _ => TypeError "list indices must be integers or slices, not str"
  | VStr _ => TypeError "string indices must be integers, not 'str'"
  | _ => TypeError ("'" ++ type_name v ++ "' object is not subscriptable")
  end.

(** [v[key]] for a string [key] *)
Definition subscript (v : value) (key : string) : result value :=
  match v with
  | VDict items =>
      match dict_get key items with
      | Some x => Ok x
      | None => Raise (KeyError key)
      end
  | _ => Raise (subscript_error v)
  end.

(** The elements [for x in v] runs through: those of a list, the keys of
    a dictionary, the characters of a string. *)
Definition iterate (v : value) : result (list value) :=
  match v with
  | VList l => Ok l
  | VDict items => Ok (map VStr (dict_keys items))
  | VStr s => Ok (map (fun c => VStr (String c EmptyString)) (list_ascii_of_string s))
  | _ => Raise (TypeError ("'" ++ type_name v ++ "' object is not iterable"))
  end.

(** [d.get(key, default)] on a dictionary *)
Definition dict_get_default (key : string) (default : value)
    (items : list (string * value)) : value :=
  match dict_get key items with
  | Some v => v
  | None => default
  end.

(** ** The program over a storage client *)

Section Program.

(** The module-level [s3_client]. *)
Variable s3_client : S3Client.

(** [json.loads]: the decoded document, or the exception it raises. *)
Variable json_loads : string -> result value.

(** [datetime.now(timezone.utc)], read after the given calls. *)
Variable utcnow : trace -> Z.

(** Keeps the entries of the pages' ['Contents'] whose key does not end
    with ['/'], reduced to ['Key'] and ['LastModified']. *)
Definition collect_objects (pages : list Page) : list BackupObject :=
  flat_map
    (fun page =>
       match Contents page with
       | Some contents =>
           map (fun obj => {| Key := Key obj; LastModified := LastModified obj |})
               (filter (fun obj => negb (endswith (Key obj) "/")) contents)
       | None => []
       end)
    pages.

(** [S3BackupCleaner.list_backup_objects]: a [ClientError] is logged and
    raised again, any other exception propagates as it is. *)
Definition list_backup_objects (bucket_name : string) (prefix : value)
  : M (list BackupObject) :=
  fun tr =>
    let tr' := tr ++ [ListObjectsV2 bucket_name prefix] in
    match paginate s3_client tr bucket_name prefix with
    | Ok pages => (Ok (collect_objects pages), tr')
    | Raise e => (Raise e, tr')
    end.

Definition batch_size : nat := 1000.

(** The loop [for i in range(0, len(keys), batch_size)] of [delete_objects],
    over the remaining start indices, with the counters so far. Only a
    [ClientError] is caught. *)
Fixpoint delete_batches (bucket_name : string) (keys : list string)
    (starts : list nat) (successful failed : nat) : M (nat * nat) :=
  match starts with
  | [] => ret (successful, failed)
  | i :: rest =>
      fun tr =>
        let batch := slice keys i (i + batch_size) in
        let tr' := tr ++ [DeleteObjects bucket_name batch] in
        match delete_objects_call s3_client tr bucket_name batch with
        | Ok response =>
            let successful :=
              match Deleted response with
              | Some deleted => successful + List.length deleted
              | None => successful
              end in
            let failed :=
              match Errors response with
              | Some errors => failed + List.length errors
              | None => failed
              end in
            delete_batches bucket_name keys rest successful failed tr'
        | Raise (ClientError _) =>
            delete_batches bucket_name keys rest successful (failed + List.length batch) tr'
        | Raise e => (Raise e, tr')
        end
  end.

(** [S3BackupCleaner.delete_objects] *)
Definition delete_objects (bucket_name : string) (keys : list string)
  : M (nat * nat) :=
  match keys with
  | [] => ret (0, 0)
  | _ :: _ =>
      delete_batches bucket_name keys (py_range (List.length keys) batch_size) 0 0
  end.

(** The dictionary returned by [process_folder], or the one the handler
    builds when [process_folder] raises; [r.get('deleted', 0)] and
    [r.get('failed', 0)] are [deleted] and [failed] below. *)
Inductive FolderResult : Type :=
| FolderDone (folder : value) (total_objects objects_to_delete deleted failed : nat)
| FolderError (folder : value) (error : string).

Definition result_folder (r : FolderResult) : value :=
  match r with
  | FolderDone f _ _ _ _ => f
  | FolderError f _ => f
  end.

Definition deleted (r : FolderResult) : nat :=
  match r with
  | FolderDone _ _ _ d _ => d
  | FolderError _ _ => 0
  end.

Definition failed (r : FolderResult) : nat :=
  match r with
  | FolderDone _ _ _ _ f => f
  | FolderError _ _ => 0
  end.

(** [S3BackupCleaner.process_folder] *)
Definition process_folder (bucket_name : string) (policy : BackupRetentionPolicy)
  : M FolderResult :=
  (objects <- list_backup_objects bucket_name (folder policy) ;;
   to_delete <- (fun tr => (get_objects_to_delete (utcnow tr) objects policy, tr)) ;;
   '(successful, failed) <- delete_objects bucket_name to_delete ;;
   ret (FolderDone (folder policy) (List.length objects) (List.length to_delete)
                   successful failed))%M.

(** The loop [for policy_config in config_data['retention_policies']] of
    [load_retention_config], with the list [policies] built so far.
    [policy_config['folder']] raises on everything but a dictionary that
    has the key, so [.get] only ever runs on a dictionary. *)
Fixpoint build_policies (configs : list value) (policies : list BackupRetentionPolicy)
  : result (list BackupRetentionPolicy) :=
  match configs with
  | [] => Ok policies
  | policy_config :: rest =>
      match policy_config with
      | VDict items =>
          (let? folder_value := subscript policy_config "folder" in
           let policy :=
             {| folder := folder_value;
                days_to_keep := dict_get_default "days_to_keep" (VInt 30) items;
                min_backups_to_keep := dict_get_default "min_backups_to_keep" (VInt 3) items |} in
           build_policies rest (policies ++ [policy]))%result
      | _ => Raise (subscript_error policy_config)
      end
  end.

(** The part of [load_retention_config] under [# Parse the configuration]. *)
Definition parse_policies (config_data : value) : result (list BackupRetentionPolicy) :=
  (let? present := py_in "retention_policies" config_data in
   if present : bool then
     let? section := subscript config_data "retention_policies" in
     let? configs := iterate section in
     build_policies configs []
   else Ok [])%result.

(** The first part of [load_retention_config]: [config_data], read from
    storage when [config_source] is an [s3://bucket/key] path and from
    [config_source] itself otherwise. Both [except] clauses log and raise
    again. *)
Definition read_config_data (config_source : string) : M value :=
  if prefix "s3://" config_source then
    let parts := split_slash (drop 5 config_source) in
    let bucket := fst parts in
    let key := match snd parts with Some k => k | None => "config.json" end in
    fun tr =>
      let tr' := tr ++ [GetObject bucket key] in
      match get_object s3_client tr bucket key with
      | Ok text => (json_loads text, tr')
      | Raise e => (Raise e, tr')
      end
  else lift (json_loads config_source).

(** [load_retention_config] *)
Definition load_retention_config (config_source : string)
  : M (list BackupRetentionPolicy) :=
  (config_data <- read_config_data config_source ;;
   lift (parse_policies config_data))%M.

(** [os.environ], as far as the handler reads it. *)
Record Environ : Type := {
  BUCKET_NAME : option string;
  RETENTION_CONFIG : option string
}.

(** The dictionary passed to [json.dumps] for the response ['body']. *)
Inductive Body : Type :=
| ErrorBody (error : string)
| NoPoliciesBody (message : string) (results : list FolderResult)
| SummaryBody (message : string) (total_deleted total_failed : nat)
              (results : list FolderResult)
| InternalErrorBody (error message : string).

Record Response : Type := {
  statusCode : Z;
  body : Body
}.

(** The loop [for policy in policies] of [lambda_handler], with the list
    [results] built so far. [except Exception] catches whatever
    [process_folder] raises. *)
Fixpoint process_policies (bucket_name : string)
    (policies : list BackupRetentionPolicy) (results : list FolderResult)
  : trace -> list FolderResult * trace :=
  match policies with
  | [] => fun tr => (results, tr)
  | policy :: rest =>
      fun tr =>
        match process_folder bucket_name policy tr with
        | (Ok result, tr') =>
            process_policies bucket_name rest (results ++ [result]) tr'
        | (Raise e, tr') =>
            process_policies bucket_name rest
              (results ++ [FolderError (folder policy) (str e)]) tr'
        end
  end.

(** The body of the [try] block of [lambda_handler]. *)
Definition run_cleanup (bucket_name retention_config : string) : M Response :=
  (policies <- load_retention_config retention_config ;;
   match policies with
   | [] =>
       ret {| statusCode := 200;
              body := NoPoliciesBody "No retention policies configured" [] |}
   | _ :: _ =>
       fun tr =>
         let (results, tr') := process_policies bucket_name policies [] tr in
         let total_deleted := list_sum (map deleted results) in
         let total_failed := list_sum (map failed results) in
         (Ok {| statusCode := 200;
                body := SummaryBody "Backup cleanup completed"
                                    total_deleted total_failed results |}, tr')
   end)%M.

(** [lambda_handler]. The event is only logged (it is what the Lambda
    runtime decoded from JSON, so [json.dumps(event)] returns); the context
    is unused. Every path ends in a [return], so the handler yields a
    response. *)
Definition lambda_handler (environ : Environ) : trace -> Response * trace :=
  fun tr =>
    let bucket_name := BUCKET_NAME environ in
    let retention_config := RETENTION_CONFIG environ in
    if not_set bucket_name then
      ({| statusCode := 400;
          body := ErrorBody "BUCKET_NAME environment variable is required" |}, tr)
    else if not_set retention_config then
      ({| statusCode := 400;
          body := ErrorBody "RETENTION_CONFIG environment variable is required" |}, tr)
    else
      match run_cleanup (match bucket_name with Some b => b | None => "" end)
                        (match retention_config with Some c => c | None => "" end) tr with
      | (Ok response, tr') => (response, tr')
      | (Raise e, tr') =>
          ({| statusCode := 500;
              body := InternalErrorBody "Internal server error" (str e) |}, tr')
      end.

End Program.

(** ** A reference JSON decoder

    The development is parametric in [json.loads]. For the concrete runs
    below, this decoder reads the JSON texts made of objects, arrays,
    integers, [true], [false], [null] and strings without escapes, and
    rejects every other text with a [JSONDecodeError] (whose message does
    not reproduce the position that the real decoder reports). *)

Definition is_space (c : ascii) : bool :=
  Ascii.eqb c " " || Ascii.eqb c "009" || Ascii.eqb c "010" || Ascii.eqb c "013".

Definition is_digit (c : ascii) : bool :=
  (48 <=? nat_of_ascii c)%nat && (nat_of_ascii c <=? 57)%nat.

Fixpoint skip_spaces (s : list ascii) : list ascii :=
  match s with
  | c :: rest => if is_space c then skip_spaces rest else s
  | [] => []
  end.

(** [Some rest] when [s] is [word] followed by [rest]. *)
Fixpoint strip_word (word s : list ascii) : option (list ascii) :=
  match word, s with
  | [], _ => Some s
  | w :: word', c :: s' => if Ascii.eqb w c then strip_word word' s' else None
  | _ :: _, [] => None
  end.

(** The digits at the head of [s], as a number, and what follows them. *)
Fixpoint read_digits (s : list ascii) (acc : Z) : Z * list ascii :=
  match s with
  | c :: rest =>
      if is_digit c
      then read_digits rest (10 * acc + Z.of_nat (nat_of_ascii c - 48))%Z
      else (acc, s)
  | [] => (acc, [])
  end.

(** A natural number literal: [0], or digits that do not start with [0];
    a fraction or an exponent after it is outside the fragment. *)
Definition read_natural (s : list ascii) : option (Z * list ascii) :=
  match s with
  | c :: rest =>
      if negb (is_digit c) then None
      else
        let (n, after) := read_digits s 0%Z in
        let leading_zero :=
          Ascii.eqb c "0" && match rest with d :: _ => is_digit d | [] => false end in
        let continues :=
          match after with
          | d :: _ => Ascii.eqb d "." || Ascii.eqb d "e" || Ascii.eqb d "E"
          | [] => false
          end in
        if leading_zero || continues then None else Some (n, after)
  | [] => None
  end.

(** The characters up to the closing quote of a string. *)
Fixpoint read_string (s : list ascii) : option (string * list ascii) :=
  match s with
  | [] => None
  | c :: rest =>
      if Ascii.eqb c "034" then Some (EmptyString, rest)
      else if Ascii.eqb c "092" || (nat_of_ascii c <? 32)%nat then None
      else
        match read_string rest with
        | Some (text, after) => Some (String c text, after)
        | None => None
        end
  end.

(** [d[key] = v] on a dictionary kept as an association list. *)
Fixpoint dict_set (key : string) (v : value) (items : list (string * value))
  : list (string * value) :=
  match items with
  | [] => [(key, v)]
  | (k, x) :: rest =>
      if String.eqb k key then (k, v) :: rest else (k, x) :: dict_set key v rest
  end.

Definition dict_of_pairs (pairs : list (string * value)) : list (string * value) :=
  fold_left (fun items kv => dict_set (fst kv) (snd kv) items) pairs [].

Fixpoint decode_value (fuel : nat) (s : list ascii) : option (value * list ascii) :=
  match fuel with
  | O => None
  | S fuel' =>
      match skip_spaces s with
      | [] => None
      | c :: rest =>
          if Ascii.eqb c "034" then
            match read_string rest with
            | Some (text, after) => Some (VStr text, after)
            | None => None
            end
          else if Ascii.eqb c "[" then
            match skip_spaces rest with
            | d :: after =>
                if Ascii.eqb d "]" then Some (VList [], after)
                else
                  match decode_elements fuel' rest with
                  | Some (l, after') => Some (VList l, after')
                  | None => None
                  end
            | [] => None
            end
          else if Ascii.eqb c "{" then
            match skip_spaces rest with
            | d :: after =>
                if Ascii.eqb d "}" then Some (VDict [], after)
                else
                  match decode_members fuel' rest with
                  | Some (pairs, after') => Some (VDict (dict_of_pairs pairs), after')
                  | None => None
                  end
            | [] => None
            end
          else if Ascii.eqb c "-" then
            match read_natural rest with
            | Some (n, after) => Some (VInt (- n), after)
            | None => None
            end
          else if is_digit c then
            match read_natural (c :: rest) with
            | Some (n, after) => Some (VInt n, after)
            | None => None
            end
          else
            match strip_word (list_ascii_of_string "null") (c :: rest) with
            | Some after => Some (VNone, after)
            | None =>
                match strip_word (list_ascii_of_string "true") (c :: rest) with
                | Some after => Some (VBool true, after)
                | None =>
                    match strip_word (list_ascii_of_string "false") (c :: rest) with
                    | Some after => Some (VBool false, after)
                    | None => None
                    end
                end
            end
      end
  end

with decode_elements (fuel : nat) (s : list ascii)
  : option (list value * list ascii) :=
  match fuel with
  | O => None
  | S fuel' =>
      match decode_value fuel' s with
      | Some (v, after) =>
          match skip_spaces after with
          | c :: rest =>
              if Ascii.eqb c "," then
                match decode_elements fuel' rest with
                | Some (l, after') => Some (v :: l, after')
                | None => None
                end
              else if Ascii.eqb c "]" then Some ([v], rest)
              else None
          | [] => None
          end
      | None => None
      end
  end

with decode_members (fuel : nat) (s : list ascii)
  : option (list (string * value) * list ascii) :=
  match fuel with
  | O => None
  | S fuel' =>
      match skip_spaces s with
      | q :: rest =>
          if negb (Ascii.eqb q "034") then None
          else
            match read_string rest with
            | Some (key, after_key) =>
                match skip_spaces after_key with
                | colon :: after_colon =>
                    if negb (Ascii.eqb colon ":") then None
                    else
                      match decode_value fuel' after_colon with
                      | Some (v, after) =>
                          match skip_spaces after with
                          | c :: rest' =>
                              if Ascii.eqb c "," then
                                match decode_members fuel' rest' with
                                | Some (pairs, after') => Some ((key, v) :: pairs, after')
                                | None => None
                                end
                              else if Ascii.eqb c "}" then Some ([(key, v)], rest')
                              else None
                          | [] => None
                          end
                      | None => None
                      end
                | [] => None
                end
            | None => None
            end
      | [] => None
      end
  end.

Definition json_loads_reference (text : string) : result value :=
  let s := list_ascii_of_string text in
  match decode_value (2 * List.length s + 2) s with
  | Some (v, after) =>
      match skip_spaces after with
      | [] => Ok v
      | _ :: _ => Raise (JSONDecodeError "Extra data")
      end
  | None => Raise (JSONDecodeError "Expecting value")
  end.

(** A string in double quotes, for writing JSON texts. *)
Definition quoted (s : string) : string :=
  (String "034" s ++ String "034" EmptyString)%string.

(** ** Sample data *)

(** The objects of [test_get_objects_to_delete_by_age], aged 5, 10, 20, 35
    and 40 days at the instant [sample_now], and its policy. *)
Definition sample_now : Z := 20000 * microseconds_per_day + 12345.

Definition aged (key : string) (days : Z) : BackupObject :=
  {| Key := key; LastModified := sample_now - days * microseconds_per_day |}.

Definition sample_objects : list BackupObject :=
  [aged "backup-1.zip" 5; aged "backup-2.zip" 10; aged "backup-3.zip" 20;
   aged "backup-4.zip" 35; aged "backup-5.zip" 40].

Definition sample_policy : BackupRetentionPolicy :=
  retention_policy (VStr "test/") 30 2.

(** The mock of [test_delete_objects_with_errors]: whatever is asked, the
    storage answers that [file1.zip] was deleted and [file2.zip] was denied.
    Listing finds nothing and there is no stored configuration. *)
Definition mock_with_errors : S3Client :=
  {| paginate := fun _ _ _ => Ok [];
     delete_objects_call := fun _ _ _ =>
       Ok {| Deleted := Some ["file1.zip"];
             Errors := Some [ {| ErrorKey := "file2.zip";
                                 Code := "AccessDenied";
                                 Message := "Access Denied" |} ] |};
     get_object := fun _ _ _ => Raise (ClientError "NoSuchKey") |}.

(** A storage that rejects the first deletion call it receives and deletes
    everything it is asked to afterwards. *)
Definition rejects_first_delete : S3Client :=
  {| paginate := fun _ _ _ => Ok [];
     delete_objects_call := fun tr _ keys =>
       match tr with
       | [] => Raise (ClientError "An error occurred (SlowDown) when calling the DeleteObjects operation")
       | _ :: _ => Ok {| Deleted := Some keys; Errors := None |}
       end;
     get_object := fun _ _ _ => Raise (ClientError "NoSuchKey") |}.

(** A storage whose answer names [file1.zip] as deleted and nothing else. *)
Definition reports_first_key_only : S3Client :=
  {| paginate := fun _ _ _ => Ok [];
     delete_objects_call := fun _ _ _ =>
       Ok {| Deleted := Some ["file1.zip"]; Errors := None |};
     get_object := fun _ _ _ => Raise (ClientError "NoSuchKey") |}.

(** A storage that cannot be reached: the client raises an exception that
    is not a [ClientError]. *)
Definition unreachable : S3Client :=
  {| paginate := fun _ _ _ => Raise (OtherException "Could not connect to the endpoint URL");
     delete_objects_call := fun _ _ _ =>
       Raise (OtherException "Could not connect to the endpoint URL");
     get_object := fun _ _ _ => Raise (OtherException "Could not connect to the endpoint URL") |}.

(** 1001 keys: one full batch and one more key. *)
Definition many_keys : list string :=
  map (fun n => ("backup-" ++ NilEmpty.string_of_uint (Nat.to_uint n) ++ ".zip")%string)
      (seq 0 1001).

Definition sample_utcnow : trace -> Z := fun _ => sample_now.

(** A storage in which folder [a/] cannot be listed, every other folder
    holds the sample objects and a folder marker, and every deletion
    succeeds for all keys. *)
Definition first_folder_unlistable : S3Client :=
  {| paginate := fun _ _ prefix =>
       match prefix with
       | VStr "a/" =>
           Raise (ClientError "An error occurred (AccessDenied) when calling the ListObjectsV2 operation: Access Denied")
       | _ =>
           Ok [ {| Contents := Some ({| Key := "b/"; LastModified := sample_now |}
                                      :: sample_objects) |};
                {| Contents := None |} ]
       end;
     delete_objects_call := fun _ _ keys =>
       Ok {| Deleted := Some keys; Errors := None |};
     get_object := fun _ _ _ => Raise (ClientError "NoSuchKey") |}.

(** [{"retention_policies": [{"folder": "a/", "days_to_keep": 30,
    "min_backups_to_keep": 2}, {"folder": "b/", "days_to_keep": 30,
    "min_backups_to_keep": 2}]}] *)
Definition two_folder_config : string :=
  ("{" ++ quoted "retention_policies" ++ ": [{"
   ++ quoted "folder" ++ ": " ++ quoted "a/" ++ ", "
   ++ quoted "days_to_keep" ++ ": 30, "
   ++ quoted "min_backups_to_keep" ++ ": 2}, {"
   ++ quoted "folder" ++ ": " ++ quoted "b/" ++ ", "
   ++ quoted "days_to_keep" ++ ": 30, "
   ++ quoted "min_backups_to_keep" ++ ": 2}]}")%string.

(** [{"version": 1}]: a document without [retention_policies]. *)
Definition no_policies_config : string :=
  ("{" ++ quoted "version" ++ ": 1}")%string.

(** [{"retention_policies": [{"days_to_keep": 7}]}]: a record without
    [folder]. *)
Definition missing_folder_config : string :=
  ("{" ++ quoted "retention_policies" ++ ": [{"
   ++ quoted "days_to_keep" ++ ": 7}]}")%string.

(** A text that is not JSON. *)
Definition malformed_config : string := "{bad".

Definition sample_environ (config : string) : Environ :=
  {| BUCKET_NAME := Some "test-bucket"; RETENTION_CONFIG := Some config |}.

(** ** Vocabulary of the statements *)

(** [a] was modified no earlier than [b]. *)
Definition newer_or_equal (a b : BackupObject) : Prop :=
  (LastModified b <= LastModified a)%Z.

(** The test [age_days > policy.days_to_keep] of the loop. *)
Definition too_old (now d : Z) (obj : BackupObject) : bool :=
  (age_days now obj >? d)%Z.

(** [min(min_backups_to_keep, N)] for the [N] objects of a folder. *)
Definition retained_minimum (k : Z) (objects : list BackupObject) : nat :=
  Z.to_nat (Z.min k (Z.of_nat (List.length objects))).

(** The batch [keys[i:i + batch_size]] sent for the start index [i]. *)
Definition batch_at (keys : list string) (i : nat) : list string :=
  slice keys i (i + batch_size).

(** The batches [delete_objects] goes through, in order. *)
Definition batches (keys : list string) : list (list string) :=
  map (batch_at keys) (py_range (List.length keys) batch_size).

(** The deletion calls for the given start indices. *)
Definition delete_calls (bucket_name : string) (keys : list string)
    (starts : list nat) : trace :=
  map (fun i => DeleteObjects bucket_name (batch_at keys i)) starts.

(** The number of entries of a response: the keys it reports as deleted
    and those it reports as errors. *)
Definition reported (response : DeleteResponse) : nat :=
  match Deleted response with Some l => List.length l | None => 0 end
  + match Errors response with Some l => List.length l | None => 0 end.

(** The answer to the call for [batch] reports every key of the batch once,
    as deleted or as an error, or the storage rejects the whole call with a
    [ClientError]. *)
Definition answers_every_key (answer : result DeleteResponse)
    (batch : list string) : Prop :=
  match answer with
  | Ok response => reported response = List.length batch
  | Raise (ClientError _) => True
  | Raise _ => False
  end.

(** The number of keys the storage acknowledges over the calls for the
    given start indices, made from the trace [tr] on: the entries of each
    response, and the whole batch for a call that raises. *)
Fixpoint acknowledged (s3_client : S3Client) (bucket_name : string)
    (keys : list string) (starts : list nat) (tr : trace) : nat :=
  match starts with
  | [] => 0
  | i :: rest =>
      match delete_objects_call s3_client tr bucket_name (batch_at keys i) with
      | Ok response => reported response
      | Raise _ => List.length (batch_at keys i)
      end
      + acknowledged s3_client bucket_name keys rest
          (tr ++ [DeleteObjects bucket_name (batch_at keys i)])
  end.

(** The entry the loop of the handler appends for one policy. *)
Definition folder_entry (policy : BackupRetentionPolicy)
    (outcome : result FolderResult) : FolderResult :=
  match outcome with
  | Ok r => r
  | Raise e => FolderError (folder policy) (str e)
  end.

(** The entries of folders that completed without error. *)
Definition completed (r : FolderResult) : bool :=
  match r with
  | FolderDone _ _ _ _ _ => true
  | FolderError _ _ => false
  end.

(** A policy record without the required field [folder]. *)
Definition record_without_folder (record : value) : Prop :=
  exists fields, record = VDict fields /\ dict_get "folder" fields = None.

(** What reading the configuration yields when the configuration is in
    error: the text is malformed JSON, or the document is a dictionary whose
    [retention_policies] list has a record without [folder]. *)
Definition configuration_in_error (outcome : result value) : Prop :=
  (exists msg, outcome = Raise (JSONDecodeError msg)) \/
  (exists items records,
      outcome = Ok (VDict items) /\
      dict_get "retention_policies" items = Some (VList records) /\
      Exists record_without_folder records).

(** What a folder holds once every key of [to_delete] is gone. *)
Definition remaining (objects : list BackupObject) (to_delete : list string)
  : list BackupObject :=
  filter (fun obj => negb (existsb (String.eqb (Key obj)) to_delete)) objects.

(** [s] ends with ['/']. *)
Definition is_folder_marker (s : string) : Prop :=
  exists head, s = (head ++ "/")%string.

(** [s] has no ['/'] in it. *)
Definition no_slash (s : string) : Prop :=
  ~ In "/"%char (list_ascii_of_string s).

(** The values that [<] and [>] compare with an [int]. *)
Definition is_number (v : value) : bool :=
  match v with
  | VInt _ | VBool _ | VFloat _ => true
  | _ => false
  end.

(** The configuration record that spells out all three fields of a policy. *)
Definition policy_record (policy : BackupRetentionPolicy) : value :=
  VDict [("folder", folder policy);
         ("days_to_keep", days_to_keep policy);
         ("min_backups_to_keep", min_backups_to_keep policy)].

(** A listing or a deletion in the given bucket. *)
Definition works_on_bucket (bucket_name : string) (c : call) : Prop :=
  match c with
  | ListObjectsV2 b _ => b = bucket_name
  | DeleteObjects b _ => b = bucket_name
  | GetObject _ _ => False
  end.

(** The two totals the report is to carry: the sums of the [deleted] and of
    the [failed] counts of the folders that completed, the entries of
    folders that ended in an error being passed over. *)
Fixpoint completed_totals (results : list FolderResult) : nat * nat :=
  match results with
  | [] => (0, 0)
  | FolderDone _ _ _ d f :: rest =>
      (d + fst (completed_totals rest), f + snd (completed_totals rest))
  | FolderError _ _ :: rest => completed_totals rest
  end.

(** A storage in which folder [a/] cannot be listed, every other folder
    holds the sample objects, and a deletion call deletes the first key it
    is given and denies the others. *)
Definition unlistable_then_denied : S3Client :=
  {| paginate := fun _ _ prefix =>
       match prefix with
       | VStr "a/" =>
           Raise (ClientError "An error occurred (AccessDenied) when calling the ListObjectsV2 operation: Access Denied")
       | _ => Ok [ {| Contents := Some sample_objects |} ]
       end;
     delete_objects_call := fun _ _ keys =>
       Ok {| Deleted := Some (firstn 1 keys);
             Errors := Some (map (fun key => {| ErrorKey := key;
                                                Code := "AccessDenied";
                                                Message := "Access Denied" |})
                                 (skipn 1 keys)) |};
     get_object := fun _ _ _ => Raise (ClientError "NoSuchKey") |}.

(** [{"retention_policies": [{"folder": "b/", "days_to_keep": 30,
    "min_backups_to_keep": 2}, {"folder": "c/", "days_to_keep": 7,
    "min_backups_to_keep": 1}]}] *)
Definition listable_folders_config : string :=
  ("{" ++ quoted "retention_policies" ++ ": [{"
   ++ quoted "folder" ++ ": " ++ quoted "b/" ++ ", "
   ++ quoted "days_to_keep" ++ ": 30, "
   ++ quoted "min_backups_to_keep" ++ ": 2}, {"
   ++ quoted "folder" ++ ": " ++ quoted "c/" ++ ", "
   ++ quoted "days_to_keep" ++ ": 7, "
   ++ quoted "min_backups_to_keep" ++ ": 1}]}")%string.

(** * Properties *)

(** ** Lists *)

Lemma in_skipn {A} (n : nat) (l : list A) (x : A) : In x (skipn n l) -> In x l.
Proof.
  intros H. rewrite <- (firstn_skipn n l). apply in_or_app. right. exact H.
Qed.

Lemma skipn_min_length {A} (n : nat) (l : list A) :
  skipn (Nat.min n (List.length l)) l = skipn n l.
Proof.
  destruct (Nat.le_gt_cases n (List.length l)) as [H|H].
  - rewrite Nat.min_l by exact H. reflexivity.
  - rewrite Nat.min_r by lia. rewrite skipn_all.
    symmetry. apply skipn_all2. lia.
Qed.

(** ** The sort *)

Lemma insert_newest_first_perm (x : BackupObject) (l : list BackupObject) :
  Permutation (insert_newest_first x l) (x :: l).
Proof.
  induction l as [|y l IH]; simpl.
  - apply Permutation_refl.
  - destruct (LastModified y <=? LastModified x)%Z.
    + apply Permutation_refl.
    + apply perm_trans with (y :: x :: l).
      * apply perm_skip, IH.
      * apply perm_swap.
Qed.

Lemma sorted_objects_perm (objects : list BackupObject) :
  Permutation (sorted_objects objects) objects.
Proof.
  induction objects as [|x l IH]; simpl.
  - apply perm_nil.
  - apply perm_trans with (x :: sorted_objects l).
    + apply insert_newest_first_perm.
    + apply perm_skip, IH.
Qed.

Lemma sorted_objects_length (objects : list BackupObject) :
  List.length (sorted_objects objects) = List.length objects.
Proof. apply Permutation_length, sorted_objects_perm. Qed.

Lemma insert_newest_first_sorted (x : BackupObject) (l : list BackupObject) :
  StronglySorted newer_or_equal l ->
  StronglySorted newer_or_equal (insert_newest_first x l).
Proof.
  induction 1 as [|y l Hl IH Hy]; simpl.
  - constructor; [constructor | constructor].
  - destruct (Z.leb_spec (LastModified y) (LastModified x)) as [Hle|Hlt].
    + constructor.
      * constructor; assumption.
      * constructor; [exact Hle|].
        rewrite Forall_forall in Hy |- *.
        intros z Hz. specialize (Hy z Hz).
        unfold newer_or_equal in *. lia.
    + constructor; [exact IH|].
      rewrite Forall_forall in Hy |- *.
      intros z Hz.
      apply (Permutation_in _ (insert_newest_first_perm x l)) in Hz.
      destruct Hz as [<-|Hz].
      * unfold newer_or_equal. lia.
      * apply Hy, Hz.
Qed.

Lemma sorted_objects_sorted (objects : list BackupObject) :
  StronglySorted newer_or_equal (sorted_objects objects).
Proof.
  induction objects as [|x l IH]; simpl.
  - constructor.
  - apply insert_newest_first_sorted, IH.
Qed.

(** In a list sorted newest first, everything in a prefix is at least as
    recent as everything after it. *)
Lemma sorted_prefix_newest (l : list BackupObject) :
  StronglySorted newer_or_equal l ->
  forall n a b, In a (firstn n l) -> In b (skipn n l) -> newer_or_equal a b.
Proof.
  induction 1 as [|y l Hl IH Hy]; intros n a b Ha Hb.
  - rewrite firstn_nil in Ha. destruct Ha.
  - destruct n as [|n]; simpl in Ha, Hb.
    + destruct Ha.
    + destruct Ha as [<-|Ha].
      * rewrite Forall_forall in Hy. apply Hy.
        apply (in_skipn n l b Hb).
      * apply (IH n a b Ha Hb).
Qed.

(** Equal timestamps keep their input order: the sort is stable. *)
Lemma sorted_objects_stable (x : BackupObject) (objects : list BackupObject) :
  Forall (fun y => (LastModified y <= LastModified x)%Z) objects ->
  sorted_objects (x :: objects) = x :: sorted_objects objects.
Proof.
  intros H. simpl.
  assert (Hs : Forall (fun y => (LastModified y <= LastModified x)%Z)
                      (sorted_objects objects)).
  { rewrite Forall_forall in H |- *. intros y Hy. apply H.
    apply (Permutation_in _ (sorted_objects_perm objects) Hy). }
  destruct (sorted_objects objects) as [|y l]; simpl; [reflexivity|].
  inversion Hs as [|? ? Hy _]; subst.
  apply Z.leb_le in Hy. rewrite Hy. reflexivity.
Qed.

(** ** The retention evaluator on an integer policy *)

Lemma py_lt_int (a k : Z) : py_lt a (VInt k) = Ok (a <? k)%Z.
Proof. reflexivity. Qed.

Lemma py_gt_int (a d : Z) : py_gt a (VInt d) = Ok (a >? d)%Z.
Proof. reflexivity. Qed.

Lemma retention_loop_integers (now : Z) (f : value) (d k : Z) :
  forall objs idx to_delete,
    retention_loop now (retention_policy f d k) idx objs to_delete =
    Ok (to_delete ++
        map Key (filter (too_old now d)
                        (skipn (Z.to_nat (k - Z.of_nat idx)) objs))).
Proof.
  induction objs as [|obj rest IH]; intros idx to_delete.
  - simpl. rewrite skipn_nil. simpl. rewrite app_nil_r. reflexivity.
  - cbn [retention_loop retention_policy min_backups_to_keep days_to_keep].
    rewrite py_lt_int. cbn [rbind].
    destruct (Z.ltb_spec (Z.of_nat idx) k) as [Hlt|Hge].
    + rewrite IH.
      replace (Z.to_nat (k - Z.of_nat idx))
        with (S (Z.to_nat (k - Z.of_nat (S idx)))) by lia.
      reflexivity.
    + rewrite py_gt_int. cbn [rbind].
      replace (Z.to_nat (k - Z.of_nat idx)) with 0 by lia.
      cbn [skipn filter]. fold (too_old now d obj).
      destruct (too_old now d obj); rewrite IH;
        replace (Z.to_nat (k - Z.of_nat (S idx))) with 0 by lia;
        cbn [skipn map]; [rewrite <- app_assoc|]; reflexivity.
Qed.

(** What the evaluator returns: the keys, in sorted order, of the objects
    that sit past the first [min_backups_to_keep] positions and are too old. *)
Lemma get_objects_to_delete_integers (now : Z) (objects : list BackupObject)
    (f : value) (d k : Z) :
  get_objects_to_delete now objects (retention_policy f d k) =
  Ok (map Key (filter (too_old now d)
                      (skipn (Z.to_nat k) (sorted_objects objects)))).
Proof.
  destruct objects as [|x l].
  - simpl. rewrite skipn_nil. reflexivity.
  - unfold get_objects_to_delete.
    rewrite retention_loop_integers. cbn [app Z.of_nat].
    rewrite Z.sub_0_r. reflexivity.
Qed.

Lemma skipn_retained_minimum (k : Z) (objects : list BackupObject) :
  skipn (retained_minimum k objects) (sorted_objects objects) =
  skipn (Z.to_nat k) (sorted_objects objects).
Proof.
  unfold retained_minimum.
  rewrite Z2Nat.inj_min, Nat2Z.id, <- (sorted_objects_length objects).
  apply skipn_min_length.
Qed.

Lemma NoDup_app_disjoint {A} (l1 l2 : list A) (x : A) :
  NoDup (l1 ++ l2) -> In x l1 -> ~ In x l2.
Proof.
  induction l1 as [|y l1 IH]; simpl; intros Hnd Hin H2.
  - exact Hin.
  - inversion Hnd as [|? ? Hy Hnd']; subst.
    destruct Hin as [->|Hin].
    + apply Hy. apply in_or_app. right. exact H2.
    + exact (IH Hnd' Hin H2).
Qed.

Lemma NoDup_map_injective {A B} (g : A -> B) (l : list A) (a b : A) :
  NoDup (map g l) -> In a l -> In b l -> g a = g b -> a = b.
Proof.
  induction l as [|y l IH]; simpl; intros Hnd Ha Hb Heq.
  - destruct Ha.
  - inversion Hnd as [|? ? Hy Hnd']; subst.
    destruct Ha as [->|Ha], Hb as [->|Hb].
    + reflexivity.
    + exfalso. apply Hy. rewrite Heq. apply in_map, Hb.
    + exfalso. apply Hy. rewrite <- Heq. apply in_map, Ha.
    + exact (IH Hnd' Ha Hb Heq).
Qed.

Lemma sorted_keys_NoDup (objects : list BackupObject) :
  NoDup (map Key objects) -> NoDup (map Key (sorted_objects objects)).
Proof.
  apply Permutation_NoDup, Permutation_map, Permutation_sym, sorted_objects_perm.
Qed.

(** [.days] counts whole days: it is the floor of the difference. *)
Lemma age_days_whole_days (now : Z) (obj : BackupObject) :
  (microseconds_per_day * age_days now obj <= now - LastModified obj
   < microseconds_per_day * (age_days now obj + 1))%Z.
Proof.
  unfold age_days.
  assert (Hpos : (0 < microseconds_per_day)%Z) by reflexivity.
  pose proof (Z.mul_div_le (now - LastModified obj) _ Hpos).
  pose proof (Z.mul_succ_div_gt (now - LastModified obj) _ Hpos).
  lia.
Qed.

(** For an object that is not newer than [now], the floor is the
    truncation. *)
Lemma age_days_truncation (now : Z) (obj : BackupObject) :
  (LastModified obj <= now)%Z ->
  age_days now obj = ((now - LastModified obj) ÷ microseconds_per_day)%Z.
Proof.
  intros H. unfold age_days. symmetry.
  apply Z.quot_div_nonneg; [lia | reflexivity].
Qed.

(** ** Claims on the retention evaluator *)

(** C1. For every object list and every (integer) retention policy, the
    evaluator returns, and none of the [min(min_backups_to_keep, N)] most
    recently modified objects is marked: the sorted list is a rearrangement
    of the input whose first [min(min_backups_to_keep, N)] objects are at
    least as recent as all the others, the marked keys are those of (too
    old) objects past that prefix, so with the keys of a bucket being unique
    no key of the prefix is returned; and when [min_backups_to_keep >= N]
    the result is empty. *)
Theorem retained_minimum_never_marked :
  forall (now : Z) (objects : list BackupObject) (f : value) (d k : Z),
  exists to_delete : list string,
    get_objects_to_delete now objects (retention_policy f d k) = Ok to_delete /\
    Permutation (sorted_objects objects) objects /\
    List.length (firstn (retained_minimum k objects) (sorted_objects objects))
      = retained_minimum k objects /\
    (forall a b,
        In a (firstn (retained_minimum k objects) (sorted_objects objects)) ->
        In b (skipn (retained_minimum k objects) (sorted_objects objects)) ->
        (LastModified b <= LastModified a)%Z) /\
    to_delete =
      map Key (filter (too_old now d)
                      (skipn (retained_minimum k objects) (sorted_objects objects))) /\
    (NoDup (map Key objects) ->
     forall obj,
       In obj (firstn (retained_minimum k objects) (sorted_objects objects)) ->
       ~ In (Key obj) to_delete) /\
    ((Z.of_nat (List.length objects) <= k)%Z -> to_delete = []).
Proof.
  intros now objects f d k.
  eexists. split; [apply get_objects_to_delete_integers|].
  rewrite <- skipn_retained_minimum.
  set (n := retained_minimum k objects).
  set (sorted := sorted_objects objects).
  split; [apply sorted_objects_perm|].
  split.
  { rewrite length_firstn. apply Nat.min_l.
    unfold sorted. rewrite sorted_objects_length.
    unfold n, retained_minimum. lia. }
  split.
  { intros a b Ha Hb.
    exact (sorted_prefix_newest sorted (sorted_objects_sorted objects) n a b Ha Hb). }
  split; [reflexivity|].
  split.
  - intros Hnd obj Hobj Hin.
    apply in_map_iff in Hin. destruct Hin as (obj' & Hkey & Hobj').
    apply filter_In in Hobj'. destruct Hobj' as [Hobj' _].
    pose proof (sorted_keys_NoDup objects Hnd) as Hnd'.
    fold sorted in Hnd'.
    rewrite <- (firstn_skipn n sorted), map_app in Hnd'.
    apply (NoDup_app_disjoint _ _ (Key obj) Hnd').
    + apply in_map, Hobj.
    + rewrite <- Hkey. apply in_map, Hobj'.
  - intros Hk.
    replace n with (List.length sorted).
    + rewrite skipn_all. reflexivity.
    + unfold sorted, n, retained_minimum.
      rewrite sorted_objects_length. lia.
Qed.

Lemma retained_minimum_never_marked_witness :
  NoDup (map Key sample_objects) /\
  In (aged "backup-2.zip" 10)
     (firstn (retained_minimum 2 sample_objects) (sorted_objects sample_objects)) /\
  exists to_delete : list string,
    get_objects_to_delete sample_now sample_objects sample_policy = Ok to_delete /\
    ~ In "backup-2.zip" to_delete.
Proof.
  assert (Hnd : NoDup (map Key sample_objects)).
  { repeat constructor; simpl; intuition discriminate. }
  assert (Hin : In (aged "backup-2.zip" 10)
                   (firstn (retained_minimum 2 sample_objects)
                           (sorted_objects sample_objects))).
  { right. left. reflexivity. }
  split; [exact Hnd|]. split; [exact Hin|].
  destruct (retained_minimum_never_marked sample_now sample_objects
              (VStr "test/") 30 2)
    as (to_delete & Hrun & _ & _ & _ & _ & Hkeep & _).
  exists to_delete. split; [exact Hrun|].
  exact (Hkeep Hnd _ Hin).
Defined.

(** C2. For every object at a sorted position [idx >= min_backups_to_keep],
    the evaluator marks it if and only if [age_days > days_to_keep], where
    [age_days] counts the whole days of [now - last_modified] (its floor,
    which is its truncation for an object not newer than [now], and decides
    the same as the truncation whenever [days_to_keep >= 0]); an object with
    [age_days = days_to_keep] is retained. The keys returned are exactly
    those of the too old objects past the retained minimum; "marked" is read
    on keys, which are unique in a bucket. *)
Theorem beyond_minimum_marked_iff_older :
  forall (now : Z) (objects : list BackupObject) (f : value) (d k : Z)
         (idx : nat) (obj : BackupObject),
    nth_error (sorted_objects objects) idx = Some obj ->
    (k <= Z.of_nat idx)%Z ->
    exists to_delete : list string,
      get_objects_to_delete now objects (retention_policy f d k) = Ok to_delete /\
      to_delete =
        map Key (filter (fun o => (age_days now o >? d)%Z)
                        (skipn (Z.to_nat k) (sorted_objects objects))) /\
      ((d < age_days now obj)%Z -> In (Key obj) to_delete) /\
      (NoDup (map Key objects) ->
       In (Key obj) to_delete -> (d < age_days now obj)%Z) /\
      (NoDup (map Key objects) ->
       age_days now obj = d -> ~ In (Key obj) to_delete) /\
      (microseconds_per_day * age_days now obj <= now - LastModified obj
       < microseconds_per_day * (age_days now obj + 1))%Z /\
      ((LastModified obj <= now)%Z ->
       age_days now obj = ((now - LastModified obj) ÷ microseconds_per_day)%Z) /\
      ((0 <= d)%Z ->
       ((d < age_days now obj)%Z <->
        (d < (now - LastModified obj) ÷ microseconds_per_day)%Z)).
Proof.
  intros now objects f d k idx obj Hnth Hidx.
  eexists. split; [apply get_objects_to_delete_integers|].
  split; [reflexivity|].
  assert (Hpast : In obj (skipn (Z.to_nat k) (sorted_objects objects))).
  { apply (nth_error_In _ (idx - Z.to_nat k)).
    rewrite nth_error_skipn.
    replace (Z.to_nat k + (idx - Z.to_nat k)) with idx by lia.
    exact Hnth. }
  assert (Honly : NoDup (map Key objects) ->
                  In (Key obj)
                     (map Key (filter (too_old now d)
                                      (skipn (Z.to_nat k) (sorted_objects objects)))) ->
                  (d < age_days now obj)%Z).
  { intros Hnd Hin.
    apply in_map_iff in Hin. destruct Hin as (obj' & Hkey & Hobj').
    apply filter_In in Hobj'. destruct Hobj' as [Hobj' Hold].
    assert (obj' = obj) as ->.
    { apply (NoDup_map_injective Key (sorted_objects objects)).
      - apply sorted_keys_NoDup, Hnd.
      - apply (in_skipn _ _ _ Hobj').
      - apply (nth_error_In _ _ Hnth).
      - exact Hkey. }
    apply Z.gtb_lt. exact Hold. }
  split.
  { intros Hold. apply in_map. apply filter_In. split; [exact Hpast|].
    apply Z.gtb_lt. exact Hold. }
  split; [exact Honly|].
  split.
  { intros Hnd Heq Hin. specialize (Honly Hnd Hin). lia. }
  split; [apply age_days_whole_days|].
  split; [apply age_days_truncation|].
  intros Hd.
  destruct (Z.le_gt_cases (LastModified obj) now) as [Hle|Hgt].
  - rewrite (age_days_truncation now obj Hle). reflexivity.
  - pose proof (age_days_whole_days now obj) as Hage.
    assert (Hq : ((now - LastModified obj) ÷ microseconds_per_day <= 0)%Z).
    { apply Z.quot_le_upper_bound; [reflexivity | lia]. }
    assert (Hpos : (0 < microseconds_per_day)%Z) by reflexivity.
    split; intros; nia.
Qed.

Lemma beyond_minimum_marked_iff_older_witness :
  nth_error (sorted_objects sample_objects) 3 = Some (aged "backup-4.zip" 35) /\
  (2 <= Z.of_nat 3)%Z /\
  (30 < age_days sample_now (aged "backup-4.zip" 35))%Z /\
  exists to_delete : list string,
    get_objects_to_delete sample_now sample_objects sample_policy = Ok to_delete /\
    In "backup-4.zip" to_delete.
Proof.
  assert (Hnth : nth_error (sorted_objects sample_objects) 3
                 = Some (aged "backup-4.zip" 35)) by reflexivity.
  assert (Hidx : (2 <= Z.of_nat 3)%Z) by (simpl; lia).
  assert (Hage : (30 < age_days sample_now (aged "backup-4.zip" 35))%Z)
    by reflexivity.
  split; [exact Hnth|]. split; [exact Hidx|]. split; [exact Hage|].
  destruct (beyond_minimum_marked_iff_older sample_now sample_objects
              (VStr "test/") 30 2 3 (aged "backup-4.zip" 35) Hnth Hidx)
    as (to_delete & Hrun & _ & Hmark & _).
  exists to_delete. split; [exact Hrun|].
  exact (Hmark Hage).
Defined.

(** C10. For every object list and every (integer) policy, every key the
    evaluator returns is the key of an object of the input list, and it
    returns at most [max(0, N - min_backups_to_keep)] keys. *)
Theorem marked_keys_from_input_and_bounded :
  forall (now : Z) (objects : list BackupObject) (f : value) (d k : Z),
  exists to_delete : list string,
    get_objects_to_delete now objects (retention_policy f d k) = Ok to_delete /\
    (forall key, In key to_delete ->
                 exists obj, In obj objects /\ Key obj = key) /\
    (Z.of_nat (List.length to_delete)
     <= Z.max 0 (Z.of_nat (List.length objects) - k))%Z.
Proof.
  intros now objects f d k.
  eexists. split; [apply get_objects_to_delete_integers|].
  split.
  - intros key Hin.
    apply in_map_iff in Hin. destruct Hin as (obj & Hkey & Hobj).
    apply filter_In in Hobj. destruct Hobj as [Hobj _].
    exists obj. split; [|exact Hkey].
    apply (Permutation_in _ (sorted_objects_perm objects)).
    apply (in_skipn _ _ _ Hobj).
  - rewrite length_map.
    pose proof (filter_length_le (too_old now d)
                  (skipn (Z.to_nat k) (sorted_objects objects))) as Hle.
    rewrite length_skipn, sorted_objects_length in Hle.
    lia.
Qed.

(** The two evaluator tests of the test-suite, and the boundary of the age
    rule: an object aged exactly [days_to_keep] days stays. *)
Example test_get_objects_to_delete_by_age :
  get_objects_to_delete sample_now sample_objects sample_policy
  = Ok ["backup-4.zip"; "backup-5.zip"].
Proof. reflexivity. Qed.

Example test_get_objects_to_delete_keep_minimum :
  get_objects_to_delete sample_now
    [aged "backup-0.zip" 60; aged "backup-1.zip" 60; aged "backup-2.zip" 60]
    (retention_policy (VStr "test/") 30 3)
  = Ok [].
Proof. reflexivity. Qed.

Example age_boundary_is_retained :
  get_objects_to_delete sample_now
    [aged "backup-30.zip" 30; aged "backup-31.zip" 31]
    (retention_policy (VStr "test/") 30 0)
  = Ok ["backup-31.zip"].
Proof. reflexivity. Qed.

(** ** The batch deleter *)

Section BatchDeleter.

Variable s3_client : S3Client.
Variable bucket_name : string.

Lemma batch_at_length (keys : list string) (i : nat) :
  List.length (batch_at keys i) = Nat.min batch_size (List.length keys - i).
Proof.
  unfold batch_at, slice.
  rewrite length_firstn, length_skipn.
  replace (i + batch_size - i) with batch_size by lia. reflexivity.
Qed.

Lemma batches_sum_upto (keys : list string) (b m : nat) :
  list_sum (map (fun j => Nat.min b (List.length keys - j * b)) (seq 0 m))
  = Nat.min (m * b) (List.length keys).
Proof.
  induction m as [|m IH].
  - reflexivity.
  - rewrite seq_S, map_app, list_sum_app, IH. simpl. lia.
Qed.

(** The batches cover the key list: their sizes add up to its length. *)
Lemma batches_cover (keys : list string) :
  list_sum (map (fun i => List.length (batch_at keys i))
                (py_range (List.length keys) batch_size))
  = List.length keys.
Proof.
  unfold py_range. rewrite map_map.
  rewrite (map_ext _ (fun j => Nat.min batch_size (List.length keys - j * batch_size)))
    by (intros j; apply batch_at_length).
  rewrite batches_sum_upto.
  apply Nat.min_r.
  set (n := List.length keys).
  assert (Hb : batch_size <> 0) by discriminate.
  pose proof (Nat.div_mod_eq (n + batch_size - 1) batch_size) as Hdiv.
  pose proof (Nat.mod_upper_bound (n + batch_size - 1) batch_size Hb) as Hmod.
  lia.
Qed.

(** The loop only ever appends calls to the trace. *)
Lemma delete_batches_extends (keys : list string) :
  forall starts successful failed tr,
  exists outcome calls,
    delete_batches s3_client bucket_name keys starts successful failed tr
    = (outcome, tr ++ calls).
Proof.
  induction starts as [|i rest IH]; intros successful failed tr.
  - exists (Ok (successful, failed)), []. rewrite app_nil_r. reflexivity.
  - cbn [delete_batches].
    destruct (delete_objects_call s3_client tr bucket_name
                (slice keys i (i + batch_size))) as [response|e].
    + edestruct IH as (outcome & calls & ->).
      exists outcome, (DeleteObjects bucket_name (slice keys i (i + batch_size)) :: calls).
      rewrite <- app_assoc. reflexivity.
    + destruct e;
        try (eexists _, [_]; reflexivity).
      edestruct IH as (outcome & calls & ->).
      exists outcome, (DeleteObjects bucket_name (slice keys i (i + batch_size)) :: calls).
      rewrite <- app_assoc. reflexivity.
Qed.

(** The counters never decrease. *)
Lemma delete_batches_monotone (keys : list string) :
  forall starts successful failed tr successful' failed' tr',
    delete_batches s3_client bucket_name keys starts successful failed tr
    = (Ok (successful', failed'), tr') ->
    successful <= successful' /\ failed <= failed'.
Proof.
  induction starts as [|i rest IH];
    intros successful failed tr successful' failed' tr'.
  - cbn. intros H. injection H as -> -> _. split; apply Nat.le_refl.
  - cbn [delete_batches].
    destruct (delete_objects_call s3_client tr bucket_name
                (slice keys i (i + batch_size))) as [response|e].
    + intros H. apply IH in H.
      destruct (Deleted response), (Errors response); lia.
    + destruct e; try discriminate.
      intros H. apply IH in H. lia.
Qed.

(** Running the loop over [before ++ after] is running it over [before]
    and then, if that returned, over [after]. *)
Lemma delete_batches_app (keys : list string) :
  forall before after successful failed tr,
    delete_batches s3_client bucket_name keys (before ++ after) successful failed tr
    = match delete_batches s3_client bucket_name keys before successful failed tr with
      | (Ok (successful', failed'), tr') =>
          delete_batches s3_client bucket_name keys after successful' failed' tr'
      | (Raise e, tr') => (Raise e, tr')
      end.
Proof.
  induction before as [|i rest IH]; intros after successful failed tr.
  - reflexivity.
  - cbn [app delete_batches].
    destruct (delete_objects_call s3_client tr bucket_name
                (slice keys i (i + batch_size))) as [response|e].
    + apply IH.
    + destruct e; try reflexivity. apply IH.
Qed.

(** When every call of the loop is answered for every key of its batch, or
    rejected as a whole, the loop returns, has sent every batch, and its two
    counters have grown by the number of keys sent. *)
Lemma delete_batches_accounting (keys : list string) :
  forall starts successful failed tr,
    (forall j i,
        nth_error starts j = Some i ->
        answers_every_key
          (delete_objects_call s3_client (tr ++ delete_calls bucket_name keys (firstn j starts))
                               bucket_name (batch_at keys i))
          (batch_at keys i)) ->
    exists successful' failed',
      delete_batches s3_client bucket_name keys starts successful failed tr
      = (Ok (successful', failed'), tr ++ delete_calls bucket_name keys starts) /\
      successful' + failed'
      = successful + failed
        + list_sum (map (fun i => List.length (batch_at keys i)) starts).
Proof.
  induction starts as [|i rest IH]; intros successful failed tr Hanswers.
  - exists successful, failed. cbn. rewrite app_nil_r. split; [reflexivity | lia].
  - pose proof (Hanswers 0 i eq_refl) as Hfirst.
    cbn [firstn delete_calls map] in Hfirst. rewrite app_nil_r in Hfirst.
    assert (Hrest : forall successful1 failed1,
               exists successful' failed',
                 delete_batches s3_client bucket_name keys rest successful1 failed1
                   (tr ++ [DeleteObjects bucket_name (batch_at keys i)])
                 = (Ok (successful', failed'),
                    tr ++ delete_calls bucket_name keys (i :: rest)) /\
                 successful' + failed'
                 = successful1 + failed1
                   + list_sum (map (fun i => List.length (batch_at keys i)) rest)).
    { intros successful1 failed1.
      destruct (IH successful1 failed1
                   (tr ++ [DeleteObjects bucket_name (batch_at keys i)]))
        as (s' & f' & Hrun & Hsum).
      - intros j i' Hj. specialize (Hanswers (S j) i' Hj).
        cbn [firstn delete_calls map] in Hanswers.
        rewrite <- app_assoc. exact Hanswers.
      - exists s', f'. split; [|exact Hsum].
        rewrite Hrun, <- app_assoc. reflexivity. }
    cbn [delete_batches]. fold (batch_at keys i).
    unfold answers_every_key, reported in Hfirst.
    destruct (delete_objects_call s3_client tr bucket_name (batch_at keys i))
      as [response|e].
    + match goal with
      | |- context [delete_batches _ _ _ rest ?s1 ?f1 _] =>
          destruct (Hrest s1 f1) as (s' & f' & Hrun & Hsum)
      end.
      exists s', f'. split; [exact Hrun|].
      unfold list_sum in *. cbn [map fold_right].
      destruct (Deleted response), (Errors response); lia.
    + destruct e; try contradiction.
      destruct (Hrest successful (failed + List.length (batch_at keys i)))
        as (s' & f' & Hrun & Hsum).
      exists s', f'. split; [exact Hrun|].
      unfold list_sum in *. cbn [map fold_right]. lia.
Qed.

(** Whatever the storage answers: when the loop returns, its two counters
    have grown by the number of keys the storage acknowledged. *)
Lemma delete_batches_acknowledged (keys : list string) :
  forall starts successful failed tr successful' failed' tr',
    delete_batches s3_client bucket_name keys starts successful failed tr
    = (Ok (successful', failed'), tr') ->
    successful' + failed'
    = successful + failed + acknowledged s3_client bucket_name keys starts tr.
Proof.
  induction starts as [|i rest IH];
    intros successful failed tr successful' failed' tr'.
  - cbn. intros H. injection H as -> -> _. lia.
  - cbn [delete_batches acknowledged]. fold (batch_at keys i).
    destruct (delete_objects_call s3_client tr bucket_name (batch_at keys i))
      as [response|e].
    + intros H. apply IH in H. rewrite H. unfold reported.
      destruct (Deleted response), (Errors response); lia.
    + destruct e; try discriminate.
      intros H. apply IH in H. lia.
Qed.

End BatchDeleter.

(** ** Claims on the batch deleter *)

(** C3, as the code has it. For every key list and every storage whose
    answer to each batch is a mix of per-key successes and per-key errors
    (every key of the batch reported once, as deleted or as an error) or the
    rejection of the whole call with a [ClientError], [delete_objects]
    returns counts with [successful + failed] equal to the number of input
    keys, after sending every batch. *)
Theorem delete_objects_counts_every_key :
  forall (s3_client : S3Client) (bucket_name : string) (keys : list string)
         (tr : trace),
    (forall j batch,
        nth_error (batches keys) j = Some batch ->
        answers_every_key
          (delete_objects_call s3_client
             (tr ++ map (DeleteObjects bucket_name) (firstn j (batches keys)))
             bucket_name batch)
          batch) ->
    exists successful failed,
      delete_objects s3_client bucket_name keys tr
      = (Ok (successful, failed),
         tr ++ map (DeleteObjects bucket_name) (batches keys)) /\
      successful + failed = List.length keys.
Proof.
  intros s3_client bucket_name keys tr Hanswers.
  destruct keys as [|key keys'].
  - exists 0, 0. cbn. rewrite app_nil_r. split; reflexivity.
  - set (keys := key :: keys') in *.
    destruct (delete_batches_accounting s3_client bucket_name keys
                (py_range (List.length keys) batch_size) 0 0 tr)
      as (successful & failed & Hrun & Hsum).
    + intros j i Hj.
      specialize (Hanswers j (batch_at keys i)).
      unfold batches in Hanswers.
      rewrite firstn_map, map_map in Hanswers.
      apply Hanswers.
      rewrite nth_error_map, Hj. reflexivity.
    + exists successful, failed. split.
      * unfold batches. rewrite map_map. exact Hrun.
      * rewrite Hsum, batches_cover. reflexivity.
Qed.

Lemma delete_objects_counts_every_key_witness :
  exists successful failed,
    delete_objects mock_with_errors "test-bucket" ["file1.zip"; "file2.zip"] []
    = (Ok (successful, failed),
       [DeleteObjects "test-bucket" ["file1.zip"; "file2.zip"]]) /\
    successful + failed = 2.
Proof.
  apply (delete_objects_counts_every_key mock_with_errors "test-bucket"
           ["file1.zip"; "file2.zip"] []).
  intros j batch Hj.
  destruct j as [|j].
  - injection Hj as <-. reflexivity.
  - destruct j; discriminate Hj.
Defined.

(** C9. [delete_objects] on an empty key list returns exactly [(0, 0)] and
    leaves the trace as it was: no deletion call (no call at all) is made,
    whatever the storage would have answered. *)
Theorem delete_objects_empty :
  forall (s3_client : S3Client) (bucket_name : string) (tr : trace),
    delete_objects s3_client bucket_name [] tr = (Ok (0, 0), tr).
Proof. reflexivity. Qed.

(** C6, as the code has it. For every key list: when the loop has come
    through the batches [before] and the storage rejects the call for the
    next batch with a [ClientError], the one exception that is caught,
    [delete_objects] adds the size of that batch to [failed],
    leaves [successful] as it is and goes on with the batches [after]: it is
    the loop over [after] from those counters, the call for the first batch
    of [after] is issued, and whatever is finally returned counts at least
    the rejected batch as failed. *)
Theorem rejected_batch_counted_failed_and_skipped :
  forall (s3_client : S3Client) (bucket_name : string) (keys : list string)
         (before after : list nat) (i : nat) (tr tr1 : trace)
         (successful1 failed1 : nat) (msg : string),
    keys <> [] ->
    py_range (List.length keys) batch_size = before ++ i :: after ->
    delete_batches s3_client bucket_name keys before 0 0 tr
    = (Ok (successful1, failed1), tr1) ->
    delete_objects_call s3_client tr1 bucket_name (batch_at keys i)
    = Raise (ClientError msg) ->
    delete_objects s3_client bucket_name keys tr
    = delete_batches s3_client bucket_name keys after
        successful1 (failed1 + List.length (batch_at keys i))
        (tr1 ++ [DeleteObjects bucket_name (batch_at keys i)]) /\
    (forall i' after',
        after = i' :: after' ->
        exists outcome calls,
          delete_objects s3_client bucket_name keys tr
          = (outcome,
             tr1 ++ [DeleteObjects bucket_name (batch_at keys i);
                     DeleteObjects bucket_name (batch_at keys i')] ++ calls)) /\
    (forall successful failed tr',
        delete_objects s3_client bucket_name keys tr
        = (Ok (successful, failed), tr') ->
        successful1 <= successful /\
        failed1 + List.length (batch_at keys i) <= failed).
Proof.
  intros s3_client bucket_name keys before after i tr tr1 successful1 failed1 msg
         Hkeys Hrange Hbefore Hreject.
  assert (Hstep :
    delete_objects s3_client bucket_name keys tr
    = delete_batches s3_client bucket_name keys after
        successful1 (failed1 + List.length (batch_at keys i))
        (tr1 ++ [DeleteObjects bucket_name (batch_at keys i)])).
  { destruct keys as [|key keys']; [contradiction Hkeys; reflexivity|].
    unfold delete_objects. rewrite Hrange, delete_batches_app, Hbefore.
    cbn [delete_batches]. fold (batch_at (key :: keys') i).
    rewrite Hreject. reflexivity. }
  split; [exact Hstep|]. split.
  - intros i' after' ->. rewrite Hstep.
    cbn [delete_batches]. fold (batch_at keys i').
    set (tr2 := tr1 ++ [DeleteObjects bucket_name (batch_at keys i)]).
    assert (Htr : forall calls,
               tr1 ++ [DeleteObjects bucket_name (batch_at keys i);
                       DeleteObjects bucket_name (batch_at keys i')] ++ calls
               = (tr2 ++ [DeleteObjects bucket_name (batch_at keys i')]) ++ calls).
    { intros calls. unfold tr2. rewrite <- !app_assoc. reflexivity. }
    destruct (delete_objects_call s3_client tr2 bucket_name (batch_at keys i'))
      as [response|e].
    + edestruct (delete_batches_extends s3_client bucket_name keys after')
        as (outcome & calls & ->).
      exists outcome, calls. rewrite Htr. reflexivity.
    + destruct e;
        try (eexists _, []; rewrite Htr, app_nil_r; reflexivity).
      edestruct (delete_batches_extends s3_client bucket_name keys after')
        as (outcome & calls & ->).
      exists outcome, calls. rewrite Htr. reflexivity.
  - intros successful failed tr' Hrun. rewrite Hstep in Hrun.
    exact (delete_batches_monotone _ _ _ _ _ _ _ _ _ _ Hrun).
Qed.

Lemma rejected_batch_counted_failed_and_skipped_witness :
  delete_objects rejects_first_delete "test-bucket" many_keys []
  = (Ok (1, 1000),
     [DeleteObjects "test-bucket" (batch_at many_keys 0);
      DeleteObjects "test-bucket" (batch_at many_keys 1000)]).
Proof.
  destruct (rejected_batch_counted_failed_and_skipped rejects_first_delete
              "test-bucket" many_keys [] [1000] 0 [] [] 0 0
              "An error occurred (SlowDown) when calling the DeleteObjects operation")
    as (Hstep & _ & _).
  - discriminate.
  - vm_compute. reflexivity.
  - reflexivity.
  - reflexivity.
  - rewrite Hstep. vm_compute. reflexivity.
Defined.

(** C3 as it is stated fails for a call failure that is not a
    [ClientError]: the exception is not caught, so [delete_objects] raises
    and returns no counts at all. *)
Lemma call_failure_returns_no_counts :
  delete_objects unreachable "test-bucket" ["file1.zip"; "file2.zip"] []
  = (Raise (OtherException "Could not connect to the endpoint URL"),
     [DeleteObjects "test-bucket" ["file1.zip"; "file2.zip"]]) /\
  ~ (exists successful failed tr',
        delete_objects unreachable "test-bucket" ["file1.zip"; "file2.zip"] []
        = (Ok (successful, failed), tr') /\
        successful + failed = 2).
Proof.
  split; [reflexivity|].
  intros (successful & failed & tr' & Hrun & _). discriminate Hrun.
Qed.

(** C6 as it is stated fails for a call failure that is not a
    [ClientError]: of the two batches of 1001 keys, the call for the first
    one fails, [delete_objects] raises instead of counting the batch as
    failed, and the second batch is never sent. *)
Lemma call_failure_aborts_the_deletion :
  batches many_keys = [batch_at many_keys 0; batch_at many_keys 1000] /\
  delete_objects_call unreachable [] "test-bucket" (batch_at many_keys 0)
  = Raise (OtherException "Could not connect to the endpoint URL") /\
  delete_objects unreachable "test-bucket" many_keys []
  = (Raise (OtherException "Could not connect to the endpoint URL"),
     [DeleteObjects "test-bucket" (batch_at many_keys 0)]) /\
  ~ In (DeleteObjects "test-bucket" (batch_at many_keys 1000))
       (snd (delete_objects unreachable "test-bucket" many_keys [])) /\
  ~ (exists successful failed tr',
        delete_objects unreachable "test-bucket" many_keys []
        = (Ok (successful, failed), tr')).
Proof.
  assert (Hrun : delete_objects unreachable "test-bucket" many_keys []
                 = (Raise (OtherException "Could not connect to the endpoint URL"),
                    [DeleteObjects "test-bucket" (batch_at many_keys 0)]))
    by (vm_compute; reflexivity).
  split; [vm_compute; reflexivity|].
  split; [reflexivity|].
  split; [exact Hrun|].
  rewrite Hrun. split.
  - cbn [snd]. intros [H|[]].
    apply (f_equal (fun c => match c with
                             | DeleteObjects _ keys => List.length keys
                             | _ => 0
                             end)) in H.
    vm_compute in H. discriminate H.
  - intros (successful & failed & tr' & H). discriminate H.
Qed.

(** Outside the assumptions under which C3 holds: the counters are the
    numbers of entries of the responses, so an answer that leaves a key out
    leaves it out of both counters; and an exception that is not a
    [ClientError] is not caught, it ends [delete_objects]. *)
Example delete_objects_partial_answer :
  delete_objects reports_first_key_only "test-bucket" ["file1.zip"; "file2.zip"] []
  = (Ok (1, 0), [DeleteObjects "test-bucket" ["file1.zip"; "file2.zip"]]).
Proof. reflexivity. Qed.

Example delete_objects_other_exception :
  delete_objects unreachable "test-bucket" many_keys []
  = (Raise (OtherException "Could not connect to the endpoint URL"),
     [DeleteObjects "test-bucket" (batch_at many_keys 0)]).
Proof. vm_compute. reflexivity. Qed.

(** ** The handler *)

Section Handler.

Variable s3_client : S3Client.
Variable json_loads : string -> result value.
Variable utcnow : trace -> Z.

Lemma not_set_some (s : string) : s <> "" -> not_set (Some s) = false.
Proof. destruct s; [congruence | reflexivity]. Qed.

(** With both inputs present, the handler is its [try] block, and an
    exception of the block becomes the 500 response. *)
Lemma lambda_handler_configured (environ : Environ) (bucket config : string)
    (tr : trace) :
  BUCKET_NAME environ = Some bucket -> bucket <> "" ->
  RETENTION_CONFIG environ = Some config -> config <> "" ->
  lambda_handler s3_client json_loads utcnow environ tr
  = match run_cleanup s3_client json_loads utcnow bucket config tr with
    | (Ok response, tr') => (response, tr')
    | (Raise e, tr') =>
        ({| statusCode := 500;
            body := InternalErrorBody "Internal server error" (str e) |}, tr')
    end.
Proof.
  intros Hb Hb' Hc Hc'. unfold lambda_handler.
  rewrite Hb, Hc, (not_set_some _ Hb'), (not_set_some _ Hc'). reflexivity.
Qed.

(** Reading the configuration makes no call for a literal document and
    one [get_object] call for an [s3://] path. *)
Lemma read_config_data_trace (config : string) (tr : trace) :
  exists outcome,
    read_config_data s3_client json_loads config tr
    = (outcome,
       if prefix "s3://" config
       then tr ++ [GetObject (fst (split_slash (drop 5 config)))
                             (match snd (split_slash (drop 5 config)) with
                              | Some k => k
                              | None => "config.json"
                              end)]
       else tr).
Proof.
  unfold read_config_data.
  destruct (prefix "s3://" config).
  - destruct (get_object s3_client tr _ _); eexists; reflexivity.
  - eexists. reflexivity.
Qed.

(** [process_folder] starts by listing the folder, and only appends calls. *)
Lemma process_folder_extends (bucket : string) (policy : BackupRetentionPolicy)
    (tr : trace) :
  exists outcome calls,
    process_folder s3_client utcnow bucket policy tr
    = (outcome, tr ++ ListObjectsV2 bucket (folder policy) :: calls).
Proof.
  unfold process_folder, bind, list_backup_objects.
  destruct (paginate s3_client tr bucket (folder policy)) as [pages|e].
  - destruct (get_objects_to_delete _ _ _) as [to_delete|e].
    + unfold delete_objects.
      destruct to_delete as [|key keys'].
      * eexists _, []. reflexivity.
      * edestruct (delete_batches_extends s3_client bucket (key :: keys'))
          as (outcome & calls & ->).
        rewrite <- app_assoc.
        destruct outcome as [[successful failed]|e]; eexists _, calls; reflexivity.
    + eexists _, []. reflexivity.
  - eexists _, []. reflexivity.
Qed.

(** A folder result that [process_folder] returns names the policy's folder. *)
Lemma process_folder_result_folder (bucket : string)
    (policy : BackupRetentionPolicy) (tr tr' : trace) (r : FolderResult) :
  process_folder s3_client utcnow bucket policy tr = (Ok r, tr') ->
  result_folder r = folder policy /\ exists t o d f, r = FolderDone (folder policy) t o d f.
Proof.
  unfold process_folder, bind.
  destruct (list_backup_objects _ _ _ _) as [[objects|e] tr1]; [|discriminate].
  destruct (get_objects_to_delete _ _ _) as [to_delete|e]; [|discriminate].
  destruct (delete_objects _ _ _ _) as [[[successful failed]|e] tr2]; [|discriminate].
  unfold ret. intros H. injection H as <- _.
  split; [reflexivity | eauto].
Qed.

Lemma process_policies_cons (bucket : string) (policy : BackupRetentionPolicy)
    (rest : list BackupRetentionPolicy) (results : list FolderResult) (tr : trace) :
  process_policies s3_client utcnow bucket (policy :: rest) results tr
  = process_policies s3_client utcnow bucket rest
      (results ++ [folder_entry policy
                     (fst (process_folder s3_client utcnow bucket policy tr))])
      (snd (process_folder s3_client utcnow bucket policy tr)).
Proof.
  cbn [process_policies].
  destruct (process_folder s3_client utcnow bucket policy tr) as [[r|e] tr'];
    reflexivity.
Qed.

(** The loop appends to [results]: started from [results], it yields
    [results] followed by what it yields when started from the empty list. *)
Lemma process_policies_results (bucket : string) :
  forall policies results tr,
    process_policies s3_client utcnow bucket policies results tr
    = (results ++ fst (process_policies s3_client utcnow bucket policies [] tr),
       snd (process_policies s3_client utcnow bucket policies [] tr)).
Proof.
  induction policies as [|policy rest IH]; intros results tr.
  - cbn. rewrite app_nil_r. reflexivity.
  - rewrite !process_policies_cons.
    rewrite (IH (results ++ _)), (IH ([] ++ _)).
    cbn [fst snd app]. rewrite <- app_assoc. reflexivity.
Qed.

Lemma process_policies_app (bucket : string) :
  forall before after results tr,
    process_policies s3_client utcnow bucket (before ++ after) results tr
    = process_policies s3_client utcnow bucket after
        (fst (process_policies s3_client utcnow bucket before results tr))
        (snd (process_policies s3_client utcnow bucket before results tr)).
Proof.
  induction before as [|policy rest IH]; intros after results tr.
  - reflexivity.
  - cbn [app]. rewrite !process_policies_cons. apply IH.
Qed.

(** One result per policy, in order, each naming its policy's folder. *)
Lemma process_policies_folders (bucket : string) :
  forall policies tr,
    map result_folder (fst (process_policies s3_client utcnow bucket policies [] tr))
    = map folder policies.
Proof.
  induction policies as [|policy rest IH]; intros tr.
  - reflexivity.
  - rewrite process_policies_cons, process_policies_results.
    cbn [fst app map]. rewrite IH. f_equal.
    destruct (process_folder s3_client utcnow bucket policy tr) as [[r|e] tr'] eqn:Hrun.
    + cbn. apply (process_folder_result_folder _ _ _ _ _ Hrun).
    + reflexivity.
Qed.

(** The loop lists the folder of every policy it is given. *)
Lemma process_policies_lists_all (bucket : string) :
  forall policies results tr,
    (forall c, In c tr ->
               In c (snd (process_policies s3_client utcnow bucket policies results tr))) /\
    (forall policy, In policy policies ->
       In (ListObjectsV2 bucket (folder policy))
          (snd (process_policies s3_client utcnow bucket policies results tr))).
Proof.
  induction policies as [|policy rest IH]; intros results tr.
  - split; [intros c Hc; exact Hc | intros policy []].
  - rewrite process_policies_cons.
    destruct (process_folder_extends bucket policy tr) as (outcome & calls & Hrun).
    rewrite Hrun. cbn [fst snd].
    destruct (IH (results ++ [folder_entry policy outcome])
                 (tr ++ ListObjectsV2 bucket (folder policy) :: calls))
      as [Hkeep Hlist].
    split.
    + intros c Hc. apply Hkeep, in_or_app. left. exact Hc.
    + intros p [<-|Hp].
      * apply Hkeep, in_or_app. right. left. reflexivity.
      * apply Hlist, Hp.
Qed.

(** The two totals only add up the folders that completed: an error entry
    counts for nothing. *)
Lemma totals_of_completed (count : FolderResult -> nat) (results : list FolderResult) :
  (forall r, completed r = false -> count r = 0) ->
  list_sum (map count results) = list_sum (map count (filter completed results)).
Proof.
  intros Hzero. induction results as [|r rest IH]; [reflexivity|].
  cbn [map filter]. destruct (completed r) eqn:Hr.
  - cbn [map]. unfold list_sum in *. cbn [fold_right]. rewrite IH. reflexivity.
  - unfold list_sum in *. cbn [fold_right]. rewrite (Hzero r Hr), IH. reflexivity.
Qed.

End Handler.

(** ** Claims on the handler *)

(** C7. When [BUCKET_NAME] or [RETENTION_CONFIG] is missing or empty, the
    handler returns the 400 response with the error message of the first
    missing input and leaves the trace as it was: no storage call is made. *)
Theorem missing_input_is_configuration_error :
  forall (s3_client : S3Client) (json_loads : string -> result value)
         (utcnow : trace -> Z) (environ : Environ) (tr : trace),
    BUCKET_NAME environ = None \/ BUCKET_NAME environ = Some "" \/
    RETENTION_CONFIG environ = None \/ RETENTION_CONFIG environ = Some "" ->
    lambda_handler s3_client json_loads utcnow environ tr
    = ({| statusCode := 400;
          body := ErrorBody
                    (if not_set (BUCKET_NAME environ)
                     then "BUCKET_NAME environment variable is required"
                     else "RETENTION_CONFIG environment variable is required") |},
       tr).
Proof.
  intros s3_client json_loads utcnow environ tr H.
  unfold lambda_handler.
  destruct (not_set (BUCKET_NAME environ)) eqn:Hbucket; [reflexivity|].
  destruct H as [H|[H|[H|H]]]; rewrite H in *; try discriminate Hbucket;
    reflexivity.
Qed.

Lemma missing_input_is_configuration_error_witness :
  lambda_handler first_folder_unlistable json_loads_reference sample_utcnow
    {| BUCKET_NAME := Some "test-bucket"; RETENTION_CONFIG := Some "" |} []
  = ({| statusCode := 400;
        body := ErrorBody "RETENTION_CONFIG environment variable is required" |},
     []).
Proof.
  apply (missing_input_is_configuration_error first_folder_unlistable
           json_loads_reference sample_utcnow
           {| BUCKET_NAME := Some "test-bucket"; RETENTION_CONFIG := Some "" |} []).
  right. right. right. reflexivity.
Defined.

(** C8. When the configuration document that was read is a dictionary
    without the key [retention_policies], [load_retention_config] returns the
    empty list of policies and the handler returns the 200 response whose
    body has the message "No retention policies configured" and the empty
    list of results; nothing is called after the document was read. *)
Theorem no_retention_policies_key_is_success :
  forall (s3_client : S3Client) (json_loads : string -> result value)
         (utcnow : trace -> Z) (environ : Environ) (bucket config : string)
         (items : list (string * value)) (tr tr' : trace),
    BUCKET_NAME environ = Some bucket -> bucket <> "" ->
    RETENTION_CONFIG environ = Some config -> config <> "" ->
    read_config_data s3_client json_loads config tr = (Ok (VDict items), tr') ->
    dict_get "retention_policies" items = None ->
    parse_policies (VDict items) = Ok [] /\
    load_retention_config s3_client json_loads config tr = (Ok [], tr') /\
    lambda_handler s3_client json_loads utcnow environ tr
    = ({| statusCode := 200;
          body := NoPoliciesBody "No retention policies configured" [] |},
       tr').
Proof.
  intros s3_client json_loads utcnow environ bucket config items tr tr'
         Hb Hb' Hc Hc' Hread Hkey.
  assert (Hparse : parse_policies (VDict items) = Ok []).
  { unfold parse_policies, py_in. rewrite Hkey. reflexivity. }
  assert (Hload : load_retention_config s3_client json_loads config tr
                  = (Ok [], tr')).
  { unfold load_retention_config, bind. rewrite Hread.
    unfold lift. rewrite Hparse. reflexivity. }
  split; [exact Hparse|]. split; [exact Hload|].
  rewrite (lambda_handler_configured _ _ _ _ _ _ _ Hb Hb' Hc Hc').
  unfold run_cleanup, bind. rewrite Hload. reflexivity.
Qed.

Lemma no_retention_policies_key_is_success_witness :
  lambda_handler first_folder_unlistable json_loads_reference sample_utcnow
    (sample_environ no_policies_config) []
  = ({| statusCode := 200;
        body := NoPoliciesBody "No retention policies configured" [] |},
     []).
Proof.
  apply (no_retention_policies_key_is_success first_folder_unlistable
           json_loads_reference sample_utcnow (sample_environ no_policies_config)
           "test-bucket" no_policies_config [("version", VInt 1)] [] []).
  - reflexivity.
  - discriminate.
  - reflexivity.
  - discriminate.
  - vm_compute. reflexivity.
  - reflexivity.
Defined.

Lemma build_policies_without_folder (records : list value) :
  Exists record_without_folder records ->
  forall policies, exists e, build_policies records policies = Raise e.
Proof.
  induction 1 as [record rest (fields & -> & Hmissing) | record rest _ IH];
    intros policies.
  - cbn. rewrite Hmissing. eexists. reflexivity.
  - destruct record; try (eexists; reflexivity).
    cbn. destruct (dict_get "folder" items); [apply IH|].
    eexists. reflexivity.
Qed.

(** C5, as the code has it. Whenever the configuration text is malformed
    JSON or a policy record lacks the required field [folder], the handler
    returns the 500 response "Internal server error" carrying the message of
    the exception that [load_retention_config] raised, and stops there: no
    listing and no deletion call is made. A literal JSON configuration
    leaves the trace as it was; an [s3://] path adds the one [get_object]
    call that fetched the document. *)
Theorem configuration_error_is_internal_error :
  forall (s3_client : S3Client) (json_loads : string -> result value)
         (utcnow : trace -> Z) (environ : Environ) (bucket config : string)
         (outcome : result value) (tr tr' : trace),
    BUCKET_NAME environ = Some bucket -> bucket <> "" ->
    RETENTION_CONFIG environ = Some config -> config <> "" ->
    read_config_data s3_client json_loads config tr = (outcome, tr') ->
    configuration_in_error outcome ->
    exists e,
      load_retention_config s3_client json_loads config tr = (Raise e, tr') /\
      lambda_handler s3_client json_loads utcnow environ tr
      = ({| statusCode := 500;
            body := InternalErrorBody "Internal server error" (str e) |},
         tr') /\
      (prefix "s3://" config = false -> tr' = tr) /\
      (tr' = tr \/ exists b k, tr' = tr ++ [GetObject b k]).
Proof.
  intros s3_client json_loads utcnow environ bucket config outcome tr tr'
         Hb Hb' Hc Hc' Hread Herror.
  assert (Hload : exists e,
             load_retention_config s3_client json_loads config tr = (Raise e, tr')).
  { unfold load_retention_config, bind. rewrite Hread.
    destruct Herror as [(msg & ->) | (items & records & -> & Hkey & Hbad)].
    - eexists. reflexivity.
    - destruct (build_policies_without_folder records Hbad []) as (e & He).
      exists e. unfold lift, parse_policies, py_in, subscript.
      rewrite Hkey. cbn [rbind iterate]. rewrite He. reflexivity. }
  destruct Hload as (e & Hload). exists e.
  split; [exact Hload|]. split.
  - rewrite (lambda_handler_configured _ _ _ _ _ _ _ Hb Hb' Hc Hc').
    unfold run_cleanup, bind. rewrite Hload. reflexivity.
  - destruct (read_config_data_trace s3_client json_loads config tr)
      as (outcome' & Htrace).
    rewrite Hread in Htrace. injection Htrace as _ ->.
    split.
    + intros ->. reflexivity.
    + destruct (prefix "s3://" config); [right; eauto | left; reflexivity].
Qed.

Lemma configuration_error_is_internal_error_witness :
  exists e,
    load_retention_config first_folder_unlistable json_loads_reference
      missing_folder_config [] = (Raise e, []) /\
    lambda_handler first_folder_unlistable json_loads_reference sample_utcnow
      (sample_environ missing_folder_config) []
    = ({| statusCode := 500;
          body := InternalErrorBody "Internal server error" (str e) |}, []).
Proof.
  destruct (configuration_error_is_internal_error first_folder_unlistable
              json_loads_reference sample_utcnow
              (sample_environ missing_folder_config)
              "test-bucket" missing_folder_config
              (Ok (VDict [("retention_policies",
                           VList [VDict [("days_to_keep", VInt 7)]])]))
              [] [])
    as (e & Hload & Hrun & _).
  - reflexivity.
  - discriminate.
  - reflexivity.
  - discriminate.
  - vm_compute. reflexivity.
  - right. eexists _, _. split; [reflexivity|]. split; [reflexivity|].
    constructor. eexists. split; reflexivity.
  - exists e. split; [exact Hload | exact Hrun].
Defined.

(** C5 as it is stated fails: on a malformed configuration text, and on a
    policy record without [folder], the status code is 500, not 400. *)
Lemma configuration_error_is_not_400 :
  json_loads_reference malformed_config = Raise (JSONDecodeError "Expecting value") /\
  lambda_handler first_folder_unlistable json_loads_reference sample_utcnow
    (sample_environ malformed_config) []
  = ({| statusCode := 500;
        body := InternalErrorBody "Internal server error" "Expecting value" |}, []) /\
  lambda_handler first_folder_unlistable json_loads_reference sample_utcnow
    (sample_environ missing_folder_config) []
  = ({| statusCode := 500;
        body := InternalErrorBody "Internal server error" "'folder'" |}, []) /\
  statusCode (fst (lambda_handler first_folder_unlistable json_loads_reference
                     sample_utcnow (sample_environ malformed_config) []))
  <> 400%Z /\
  statusCode (fst (lambda_handler first_folder_unlistable json_loads_reference
                     sample_utcnow (sample_environ missing_folder_config) []))
  <> 400%Z.
Proof.
  repeat split; try (vm_compute; reflexivity); vm_compute; discriminate.
Qed.

(** What the handler adds up with [r.get('deleted', 0)] and
    [r.get('failed', 0)] are the two totals over the completed folders. *)
Lemma summed_totals (results : list FolderResult) :
  list_sum (map deleted results) = fst (completed_totals results) /\
  list_sum (map failed results) = snd (completed_totals results).
Proof.
  induction results as [|r rest [Hd Hf]]; [split; reflexivity|].
  unfold list_sum in *. cbn [map fold_right completed_totals].
  destruct r as [f t o d fl | f err]; cbn [deleted failed fst snd];
    rewrite Hd, Hf; split; reflexivity.
Qed.

Lemma completed_totals_app (results1 results2 : list FolderResult) :
  completed_totals (results1 ++ results2)
  = (fst (completed_totals results1) + fst (completed_totals results2),
     snd (completed_totals results1) + snd (completed_totals results2)).
Proof.
  induction results1 as [|r rest IH]; [cbn; apply surjective_pairing|].
  destruct r as [f t o d fl | f err]; cbn [app completed_totals]; rewrite IH;
    cbn [fst snd]; [f_equal; lia | reflexivity].
Qed.

(** C4. For every list of policies: when [process_folder] raises for one
    policy, the handler records for it the entry with that folder and the
    message of the exception, and goes on: the results are those of the
    policies before it, that entry, and those of running the same loop over
    all the remaining policies, one result per remaining policy in order,
    each remaining folder being listed. The response is the 200 summary,
    whose [total_deleted] is the sum of the [deleted] counts and whose
    [total_failed] is the sum of the [failed] counts of the folders that
    completed before and after it; the folder that raised adds nothing to
    either. *)
Theorem failing_folder_is_recorded_and_skipped :
  forall (s3_client : S3Client) (json_loads : string -> result value)
         (utcnow : trace -> Z) (environ : Environ) (bucket config : string)
         (before after : list BackupRetentionPolicy)
         (policy : BackupRetentionPolicy)
         (results_before : list FolderResult)
         (tr tr0 tr1 tr2 : trace) (e : exn),
    BUCKET_NAME environ = Some bucket -> bucket <> "" ->
    RETENTION_CONFIG environ = Some config -> config <> "" ->
    load_retention_config s3_client json_loads config tr
    = (Ok (before ++ policy :: after), tr0) ->
    process_policies s3_client utcnow bucket before [] tr0 = (results_before, tr1) ->
    process_folder s3_client utcnow bucket policy tr1 = (Raise e, tr2) ->
    exists results_after tr3,
      process_policies s3_client utcnow bucket after [] tr2 = (results_after, tr3) /\
      map result_folder results_after = map folder after /\
      (forall p, In p after -> In (ListObjectsV2 bucket (folder p)) tr3) /\
      process_policies s3_client utcnow bucket (before ++ policy :: after) [] tr0
      = (results_before ++ FolderError (folder policy) (str e) :: results_after, tr3) /\
      lambda_handler s3_client json_loads utcnow environ tr
      = ({| statusCode := 200;
            body :=
              SummaryBody "Backup cleanup completed"
                (fst (completed_totals results_before)
                 + fst (completed_totals results_after))
                (snd (completed_totals results_before)
                 + snd (completed_totals results_after))
                (results_before ++ FolderError (folder policy) (str e)
                                :: results_after) |},
         tr3) /\
      filter completed (results_before ++ FolderError (folder policy) (str e)
                                       :: results_after)
      = filter completed results_before ++ filter completed results_after.
Proof.
  intros s3_client json_loads utcnow environ bucket config before after policy
         results_before tr tr0 tr1 tr2 e Hb Hb' Hc Hc' Hload Hbefore Hfolder.
  destruct (process_policies s3_client utcnow bucket after [] tr2)
    as [results_after tr3] eqn:Hafter.
  exists results_after, tr3.
  assert (Hall :
    process_policies s3_client utcnow bucket (before ++ policy :: after) [] tr0
    = (results_before ++ FolderError (folder policy) (str e) :: results_after, tr3)).
  { rewrite process_policies_app, Hbefore. cbn [fst snd].
    rewrite process_policies_cons, Hfolder. cbn [fst snd folder_entry].
    rewrite process_policies_results, Hafter. cbn [fst snd].
    rewrite <- app_assoc. reflexivity. }
  split; [reflexivity|]. split.
  { pose proof (process_policies_folders s3_client utcnow bucket after tr2) as H.
    rewrite Hafter in H. exact H. }
  split.
  { intros p Hp.
    pose proof (proj2 (process_policies_lists_all s3_client utcnow bucket
                         after [] tr2) p Hp) as H.
    rewrite Hafter in H. exact H. }
  split; [exact Hall|]. split.
  - rewrite (lambda_handler_configured _ _ _ _ _ _ _ Hb Hb' Hc Hc').
    unfold run_cleanup, bind. rewrite Hload.
    destruct (before ++ policy :: after) as [|p ps] eqn:Hps.
    { destruct before; discriminate Hps. }
    rewrite Hall.
    destruct (summed_totals
                (results_before ++ FolderError (folder policy) (str e)
                                :: results_after)) as [Hd Hf].
    rewrite completed_totals_app in Hd, Hf.
    cbn [completed_totals fst snd] in Hd, Hf.
    rewrite Hd, Hf. reflexivity.
  - rewrite filter_app. reflexivity.
Qed.

Lemma failing_folder_is_recorded_and_skipped_witness :
  lambda_handler unlistable_then_denied json_loads_reference sample_utcnow
    (sample_environ two_folder_config) []
  = ({| statusCode := 200;
        body :=
          SummaryBody "Backup cleanup completed" 1 1
            [FolderError (VStr "a/")
               "An error occurred (AccessDenied) when calling the ListObjectsV2 operation: Access Denied";
             FolderDone (VStr "b/") 5 2 1 1] |},
     [ListObjectsV2 "test-bucket" (VStr "a/");
      ListObjectsV2 "test-bucket" (VStr "b/");
      DeleteObjects "test-bucket" ["backup-4.zip"; "backup-5.zip"]]).
Proof.
  destruct (failing_folder_is_recorded_and_skipped unlistable_then_denied
              json_loads_reference sample_utcnow
              (sample_environ two_folder_config) "test-bucket" two_folder_config
              [] [retention_policy (VStr "b/") 30 2]
              (retention_policy (VStr "a/") 30 2)
              [] [] [] [] [ListObjectsV2 "test-bucket" (VStr "a/")]
              (ClientError "An error occurred (AccessDenied) when calling the ListObjectsV2 operation: Access Denied"))
    as (results_after & tr3 & Hafter & _ & _ & _ & Hrun & _).
  - reflexivity.
  - discriminate.
  - reflexivity.
  - discriminate.
  - vm_compute. reflexivity.
  - reflexivity.
  - reflexivity.
  - rewrite Hrun.
    assert (Hres : (results_after, tr3)
                   = ([FolderDone (VStr "b/") 5 2 1 1],
                      [ListObjectsV2 "test-bucket" (VStr "a/");
                       ListObjectsV2 "test-bucket" (VStr "b/");
                       DeleteObjects "test-bucket" ["backup-4.zip"; "backup-5.zip"]])).
    { rewrite <- Hafter. vm_compute. reflexivity. }
    injection Hres as -> ->. reflexivity.
Defined.

(** * Further properties of the code *)

(** ** More on the sort *)

Lemma insert_newest_first_front (x : BackupObject) (l : list BackupObject) :
  Forall (fun y => (LastModified y <= LastModified x)%Z) l ->
  insert_newest_first x l = x :: l.
Proof.
  intros H. destruct l as [|y l]; [reflexivity|].
  inversion H as [|? ? Hy _]; subst. cbn.
  apply Z.leb_le in Hy. rewrite Hy. reflexivity.
Qed.

(** Dropping objects from a sorted list and inserting commute. *)
Lemma filter_insert_newest_first (p : BackupObject -> bool) (x : BackupObject)
    (l : list BackupObject) :
  StronglySorted newer_or_equal l ->
  filter p (insert_newest_first x l)
  = if p x then insert_newest_first x (filter p l) else filter p l.
Proof.
  induction 1 as [|y l Hl IH Hy].
  - cbn. destruct (p x); reflexivity.
  - cbn [insert_newest_first].
    destruct (Z.leb_spec (LastModified y) (LastModified x)) as [Hle|Hlt].
    + cbn [filter]. destruct (p x); [|reflexivity].
      symmetry. apply insert_newest_first_front.
      apply Forall_forall. intros z Hz.
      assert (Hin : In z (y :: l)).
      { destruct (p y); [|right; apply filter_In in Hz; apply Hz].
        destruct Hz as [<-|Hz]; [left; reflexivity|].
        right. apply filter_In in Hz. apply Hz. }
      destruct Hin as [<-|Hin]; [exact Hle|].
      rewrite Forall_forall in Hy. specialize (Hy z Hin).
      unfold newer_or_equal in Hy. lia.
    + cbn [filter]. rewrite IH.
      destruct (p y) eqn:Hpy, (p x) eqn:Hpx; try reflexivity.
      cbn [insert_newest_first].
      destruct (Z.leb_spec (LastModified y) (LastModified x)); [lia|].
      reflexivity.
Qed.

(** The sort is stable, so sorting what is left of a list is what is left
    of the sorted list. *)
Lemma sorted_objects_filter (p : BackupObject -> bool) (objects : list BackupObject) :
  sorted_objects (filter p objects) = filter p (sorted_objects objects).
Proof.
  induction objects as [|x l IH]; [reflexivity|].
  cbn [sorted_objects fold_right filter].
  fold (sorted_objects l).
  rewrite (filter_insert_newest_first p x _ (sorted_objects_sorted l)).
  destruct (p x); [|exact IH].
  cbn [fold_right]. fold (sorted_objects (filter p l)). rewrite IH. reflexivity.
Qed.

(** Two lists sorted newest first that hold the same objects, all with
    different timestamps, are the same list. *)
Lemma sorted_unique (l1 : list BackupObject) :
  forall l2,
    StronglySorted newer_or_equal l1 ->
    StronglySorted newer_or_equal l2 ->
    Permutation l1 l2 ->
    NoDup (map LastModified l1) ->
    l1 = l2.
Proof.
  induction l1 as [|a l1 IH]; intros l2 H1 H2 Hperm Hnd.
  - apply Permutation_nil in Hperm. symmetry. exact Hperm.
  - destruct l2 as [|b l2].
    { apply Permutation_sym, Permutation_nil in Hperm. discriminate Hperm. }
    assert (Hab : a = b).
    { assert (Ha : In a (b :: l2))
        by (apply (Permutation_in _ Hperm); left; reflexivity).
      assert (Hb : In b (a :: l1))
        by (apply (Permutation_in _ (Permutation_sym Hperm)); left; reflexivity).
      destruct Ha as [Ha|Ha]; [symmetry; exact Ha|].
      destruct Hb as [Hb|Hb]; [exact Hb|].
      inversion H1 as [|? ? _ Hall1]; subst.
      inversion H2 as [|? ? _ Hall2]; subst.
      rewrite Forall_forall in Hall1, Hall2.
      specialize (Hall1 b Hb). specialize (Hall2 a Ha).
      unfold newer_or_equal in Hall1, Hall2.
      apply (NoDup_map_injective LastModified (a :: l1)).
      - exact Hnd.
      - left; reflexivity.
      - right; exact Hb.
      - lia. }
    subst b. f_equal.
    inversion H1; inversion H2; inversion Hnd; subst.
    apply IH; try assumption.
    apply (Permutation_cons_inv Hperm).
Qed.

(** ** More on the retention evaluator *)

Lemma in_skipn_S {A} (n : nat) (l : list A) (x : A) :
  In x (skipn (S n) l) -> In x (skipn n l).
Proof.
  revert l. induction n as [|n IH]; intros l H.
  - destruct l; [destruct H | right; exact H].
  - destruct l as [|y l]; [destruct H|]. apply (IH l H).
Qed.

Lemma in_skipn_filter {A} (p : A -> bool) (l : list A) :
  forall n x, In x (skipn n (filter p l)) -> In x (skipn n l).
Proof.
  induction l as [|y l IH]; intros n x H.
  - exact H.
  - cbn [filter] in H. destruct (p y).
    + destruct n as [|n].
      * destruct H as [<-|H]; [left; reflexivity|].
        right. apply filter_In in H. apply H.
      * apply (IH n x H).
    + specialize (IH n x H).
      destruct n as [|n]; [right; exact IH|].
      cbn [skipn]. apply in_skipn_S. exact IH.
Qed.

Lemma filter_none {A} (p : A -> bool) (l : list A) :
  (forall x, In x l -> p x = false) -> filter p l = [].
Proof.
  induction l as [|y l IH]; intros H; [reflexivity|].
  cbn. rewrite (H y (or_introl eq_refl)).
  apply IH. intros x Hx. apply H. right. exact Hx.
Qed.

(** The evaluator is idempotent: once the marked keys are gone from the
    folder, a second evaluation at the same instant under the same policy
    marks nothing. *)
Theorem second_evaluation_marks_nothing :
  forall (now : Z) (objects : list BackupObject) (f : value) (d k : Z),
  exists to_delete : list string,
    get_objects_to_delete now objects (retention_policy f d k) = Ok to_delete /\
    get_objects_to_delete now (remaining objects to_delete) (retention_policy f d k)
    = Ok [].
Proof.
  intros now objects f d k.
  eexists. split; [apply get_objects_to_delete_integers|].
  rewrite get_objects_to_delete_integers.
  unfold remaining. rewrite sorted_objects_filter.
  rewrite filter_none; [reflexivity|].
  intros obj Hobj.
  destruct (too_old now d obj) eqn:Hold; [exfalso | reflexivity].
  pose proof (in_skipn _ _ _ Hobj) as Hkept.
  apply filter_In in Hkept. destruct Hkept as [_ Hkept].
  apply in_skipn_filter in Hobj.
  apply negb_true_iff in Hkept.
  assert (Hmarked : existsb (String.eqb (Key obj))
                      (map Key (filter (too_old now d)
                                  (skipn (Z.to_nat k) (sorted_objects objects))))
                    = true).
  { apply existsb_exists. exists (Key obj). split.
    - apply in_map, filter_In. split; assumption.
    - apply String.eqb_refl. }
  rewrite Hmarked in Hkept. discriminate Hkept.
Qed.

(** When no two objects have the same timestamp, the result does not
    depend on the order in which the listing delivered the objects; this
    holds for every policy, whatever its fields are. *)
Theorem evaluation_ignores_listing_order :
  forall (now : Z) (objects objects' : list BackupObject)
         (policy : BackupRetentionPolicy),
    Permutation objects objects' ->
    NoDup (map LastModified objects) ->
    get_objects_to_delete now objects policy
    = get_objects_to_delete now objects' policy.
Proof.
  intros now objects objects' policy Hperm Hnd.
  assert (Hsorted : sorted_objects objects = sorted_objects objects').
  { apply sorted_unique.
    - apply sorted_objects_sorted.
    - apply sorted_objects_sorted.
    - apply perm_trans with objects; [apply sorted_objects_perm|].
      apply perm_trans with objects'; [exact Hperm|].
      apply Permutation_sym, sorted_objects_perm.
    - apply (Permutation_NoDup
               (Permutation_map LastModified
                  (Permutation_sym (sorted_objects_perm objects))) Hnd). }
  unfold get_objects_to_delete. rewrite Hsorted.
  destruct objects as [|x l], objects' as [|x' l']; try reflexivity; exfalso.
  all: first [ apply Permutation_nil in Hperm; discriminate Hperm
             | apply Permutation_sym, Permutation_nil in Hperm;
               discriminate Hperm ].
Qed.

Lemma evaluation_ignores_listing_order_witness :
  get_objects_to_delete sample_now sample_objects sample_policy
  = get_objects_to_delete sample_now (rev sample_objects) sample_policy.
Proof.
  apply (evaluation_ignores_listing_order sample_now sample_objects
           (rev sample_objects) sample_policy).
  - apply Permutation_rev.
  - repeat constructor; simpl; intuition discriminate.
Defined.

(** With equal timestamps the order of the listing does decide which of
    the objects is retained as the most recent one. *)
Example equal_timestamps_follow_listing_order :
  get_objects_to_delete sample_now [aged "x.zip" 40; aged "y.zip" 40]
    (retention_policy (VStr "test/") 30 1) = Ok ["y.zip"] /\
  get_objects_to_delete sample_now [aged "y.zip" 40; aged "x.zip" 40]
    (retention_policy (VStr "test/") 30 1) = Ok ["x.zip"].
Proof. split; reflexivity. Qed.

Lemma StronglySorted_filter {A} (R : A -> A -> Prop) (p : A -> bool) (l : list A) :
  StronglySorted R l -> StronglySorted R (filter p l).
Proof.
  induction 1 as [|y l Hl IH Hy]; cbn; [constructor|].
  destruct (p y); [|exact IH].
  constructor; [exact IH|].
  rewrite Forall_forall in Hy |- *.
  intros z Hz. apply Hy. apply filter_In in Hz. apply Hz.
Qed.

Lemma StronglySorted_skipn {A} (R : A -> A -> Prop) (l : list A) :
  StronglySorted R l -> forall n, StronglySorted R (skipn n l).
Proof.
  induction 1 as [|y l Hl IH Hy]; intros n.
  - rewrite skipn_nil. constructor.
  - destruct n as [|n]; [constructor; assumption | apply IH].
Qed.

Lemma NoDup_map_filter {A B} (g : A -> B) (p : A -> bool) (l : list A) :
  NoDup (map g l) -> NoDup (map g (filter p l)).
Proof.
  induction l as [|y l IH]; cbn; intros H; [constructor|].
  inversion H as [|? ? Hy Hnd]; subst.
  destruct (p y); [|apply IH, Hnd].
  cbn. constructor; [|apply IH, Hnd].
  intros Hin. apply Hy.
  apply in_map_iff in Hin. destruct Hin as (z & Hz & Hzin).
  apply filter_In in Hzin. rewrite <- Hz. apply in_map, Hzin.
Qed.

Lemma NoDup_map_skipn {A B} (g : A -> B) (n : nat) (l : list A) :
  NoDup (map g l) -> NoDup (map g (skipn n l)).
Proof.
  intros H. rewrite <- (firstn_skipn n l), map_app in H.
  exact (NoDup_app_remove_l _ _ H).
Qed.

Lemma StronglySorted_nth_error {A} (R : A -> A -> Prop) (l : list A) :
  StronglySorted R l ->
  forall i j a b,
    i < j -> nth_error l i = Some a -> nth_error l j = Some b -> R a b.
Proof.
  induction 1 as [|y l Hl IH Hy]; intros i j a b Hij Ha Hb.
  - destruct i; discriminate Ha.
  - destruct j as [|j]; [lia|].
    destruct i as [|i].
    + cbn in Ha, Hb. injection Ha as <-.
      rewrite Forall_forall in Hy. apply Hy. apply (nth_error_In _ _ Hb).
    + cbn in Ha, Hb. apply (IH i j a b); [lia | exact Ha | exact Hb].
Qed.

(** The keys come back from the newest marked object to the oldest, and,
    the keys of a folder being distinct, no key comes back twice: of two
    keys of the result, the one that comes first is the key of an object of
    the folder modified no earlier than the object of the other; the result
    is the key list of a list of objects of the folder that is sorted newest
    first. *)
Theorem marked_keys_newest_first_without_duplicates :
  forall (now : Z) (objects : list BackupObject) (f : value) (d k : Z),
    NoDup (map Key objects) ->
    exists to_delete : list string,
      get_objects_to_delete now objects (retention_policy f d k) = Ok to_delete /\
      NoDup to_delete /\
      (forall i j obj_i obj_j,
          i < j ->
          In obj_i objects -> In obj_j objects ->
          nth_error to_delete i = Some (Key obj_i) ->
          nth_error to_delete j = Some (Key obj_j) ->
          (LastModified obj_j <= LastModified obj_i)%Z) /\
      exists marked : list BackupObject,
        to_delete = map Key marked /\
        incl marked objects /\
        StronglySorted newer_or_equal marked.
Proof.
  intros now objects f d k Hnd.
  eexists. split; [apply get_objects_to_delete_integers|].
  set (marked := filter (too_old now d)
                   (skipn (Z.to_nat k) (sorted_objects objects))).
  assert (Hincl : incl marked objects).
  { intros obj Hobj. apply filter_In in Hobj. destruct Hobj as [Hobj _].
    apply (Permutation_in _ (sorted_objects_perm objects)).
    apply (in_skipn _ _ _ Hobj). }
  assert (Hsorted : StronglySorted newer_or_equal marked).
  { apply StronglySorted_filter, StronglySorted_skipn, sorted_objects_sorted. }
  assert (Hfind : forall i obj,
             In obj objects ->
             nth_error (map Key marked) i = Some (Key obj) ->
             nth_error marked i = Some obj).
  { intros i obj Hobj Hi. rewrite nth_error_map in Hi.
    destruct (nth_error marked i) as [m|] eqn:Hm; [|discriminate Hi].
    cbn in Hi. injection Hi as Hkey. f_equal.
    apply (NoDup_map_injective Key objects); try assumption.
    apply Hincl, (nth_error_In _ _ Hm). }
  split; [|split].
  - apply NoDup_map_filter, NoDup_map_skipn, sorted_keys_NoDup, Hnd.
  - intros i j obj_i obj_j Hij Hi Hj Hni Hnj.
    apply (StronglySorted_nth_error _ _ Hsorted i j obj_i obj_j Hij).
    + apply (Hfind i obj_i Hi Hni).
    + apply (Hfind j obj_j Hj Hnj).
  - exists marked. split; [reflexivity|]. split; assumption.
Qed.

Lemma marked_keys_newest_first_without_duplicates_witness :
  exists to_delete : list string,
    get_objects_to_delete sample_now (rev sample_objects) sample_policy
    = Ok to_delete /\
    nth_error to_delete 0 = Some "backup-4.zip" /\
    nth_error to_delete 1 = Some "backup-5.zip" /\
    (LastModified (aged "backup-5.zip" 40)
     <= LastModified (aged "backup-4.zip" 35))%Z.
Proof.
  destruct (marked_keys_newest_first_without_duplicates sample_now
              (rev sample_objects) (VStr "test/") 30 2)
    as (to_delete & Hrun & _ & Horder & _).
  - repeat constructor; simpl; intuition discriminate.
  - assert (Hkeys : to_delete = ["backup-4.zip"; "backup-5.zip"]).
    { assert (Hcomputed :
        get_objects_to_delete sample_now (rev sample_objects)
          (retention_policy (VStr "test/") 30 2)
        = Ok ["backup-4.zip"; "backup-5.zip"]) by reflexivity.
      rewrite Hrun in Hcomputed. injection Hcomputed as ->. reflexivity. }
    exists to_delete. split; [exact Hrun|].
    split; [rewrite Hkeys; reflexivity|].
    split; [rewrite Hkeys; reflexivity|].
    apply (Horder 0 1 (aged "backup-4.zip" 35) (aged "backup-5.zip" 40)).
    + lia.
    + cbn. tauto.
    + cbn. tauto.
    + rewrite Hkeys. reflexivity.
    + rewrite Hkeys. reflexivity.
Defined.

Lemma in_skipn_le {A} (l : list A) (x : A) :
  forall n m, n <= m -> In x (skipn m l) -> In x (skipn n l).
Proof.
  intros n m Hle. induction Hle as [|m Hle IH]; intros H; [exact H|].
  apply IH, in_skipn_S, H.
Qed.

(** Keeping more never deletes more: under a policy with a larger
    [days_to_keep] and a larger [min_backups_to_keep], every key that is
    marked is also marked under the smaller policy. *)
Theorem larger_policy_marks_less :
  forall (now : Z) (objects : list BackupObject) (f f' : value) (d d' k k' : Z),
    (d <= d')%Z -> (k <= k')%Z ->
    exists to_delete to_delete' : list string,
      get_objects_to_delete now objects (retention_policy f d k) = Ok to_delete /\
      get_objects_to_delete now objects (retention_policy f' d' k') = Ok to_delete' /\
      incl to_delete' to_delete /\
      List.length to_delete' <= List.length to_delete.
Proof.
  intros now objects f f' d d' k k' Hd Hk.
  eexists _, _.
  split; [apply get_objects_to_delete_integers|].
  split; [apply get_objects_to_delete_integers|].
  split.
  - intros key Hin.
    apply in_map_iff in Hin. destruct Hin as (obj & <- & Hobj).
    apply filter_In in Hobj. destruct Hobj as [Hobj Hold].
    apply in_map, filter_In. split.
    + apply (in_skipn_le _ _ (Z.to_nat k) (Z.to_nat k')); [lia | exact Hobj].
    + unfold too_old in *. apply Z.gtb_lt in Hold. apply Z.gtb_lt. lia.
  - rewrite !length_map.
    set (s := sorted_objects objects).
    replace (Z.to_nat k') with ((Z.to_nat k' - Z.to_nat k) + Z.to_nat k) by lia.
    rewrite <- skipn_skipn.
    set (rest := skipn (Z.to_nat k) s).
    set (m := Z.to_nat k' - Z.to_nat k).
    assert (Hsplit : filter (too_old now d) rest
                     = filter (too_old now d) (firstn m rest)
                       ++ filter (too_old now d) (skipn m rest))
      by (rewrite <- filter_app, firstn_skipn; reflexivity).
    rewrite Hsplit, length_app.
    assert (Hmono : forall l : list BackupObject,
               List.length (filter (too_old now d') l)
               <= List.length (filter (too_old now d) l)).
    { induction l as [|y l IH]; [apply Nat.le_refl|].
      cbn [filter].
      destruct (too_old now d' y) eqn:H1, (too_old now d y) eqn:H2;
        cbn [List.length]; try lia.
      exfalso. unfold too_old in H1, H2.
      apply Z.gtb_lt in H1.
      destruct (Z.gtb_spec (age_days now y) d); [discriminate H2 | lia]. }
    specialize (Hmono (skipn m rest)). lia.
Qed.

Lemma larger_policy_marks_less_witness :
  exists to_delete to_delete' : list string,
    get_objects_to_delete sample_now sample_objects
      (retention_policy (VStr "test/") 7 1) = Ok to_delete /\
    get_objects_to_delete sample_now sample_objects sample_policy = Ok to_delete' /\
    incl to_delete' to_delete /\
    List.length to_delete' <= List.length to_delete.
Proof.
  apply (larger_policy_marks_less sample_now sample_objects
           (VStr "test/") (VStr "test/") 7 30 1 2); lia.
Defined.

(** ** More on the batch deleter *)

Lemma batch_at_firstn (keys : list string) (i : nat) :
  batch_at keys i = firstn batch_size (skipn i keys).
Proof.
  unfold batch_at, slice. f_equal. lia.
Qed.

Lemma firstn_add_skipn {A} (n m : nat) (l : list A) :
  firstn n l ++ firstn m (skipn n l) = firstn (n + m) l.
Proof.
  revert l. induction n as [|n IH]; intros l; [reflexivity|].
  destruct l as [|x l]; [cbn; rewrite firstn_nil; reflexivity|].
  cbn. f_equal. apply IH.
Qed.

Lemma concat_windows {A} (b : nat) (l : list A) (m : nat) :
  List.concat (map (fun j => firstn b (skipn (j * b) l)) (seq 0 m)) = firstn (m * b) l.
Proof.
  induction m as [|m IH]; [reflexivity|].
  rewrite seq_S, map_app, concat_app, IH. cbn [map List.concat plus].
  rewrite app_nil_r, firstn_add_skipn. f_equal. lia.
Qed.

Lemma batch_count_bounds (n : nat) :
  n <= (n + batch_size - 1) / batch_size * batch_size /\
  (n + batch_size - 1) / batch_size * batch_size < n + batch_size.
Proof.
  assert (Hb : batch_size <> 0) by discriminate.
  pose proof (Nat.div_mod_eq (n + batch_size - 1) batch_size) as Hdiv.
  pose proof (Nat.mod_upper_bound (n + batch_size - 1) batch_size Hb) as Hmod.
  unfold batch_size in *. lia.
Qed.

Lemma batches_concat (keys : list string) : List.concat (batches keys) = keys.
Proof.
  unfold batches, py_range. rewrite map_map.
  rewrite (map_ext _ (fun j => firstn batch_size (skipn (j * batch_size) keys)))
    by (intros j; apply batch_at_firstn).
  rewrite concat_windows. apply firstn_all2.
  apply (batch_count_bounds (List.length keys)).
Qed.

Lemma batches_sizes (keys : list string) :
  Forall (fun batch => 1 <= List.length batch <= 1000) (batches keys).
Proof.
  pose proof (batch_count_bounds (List.length keys)) as [Hcover Hlast].
  unfold batches, py_range. rewrite map_map.
  apply Forall_forall. intros batch Hin.
  apply in_map_iff in Hin. destruct Hin as (j & <- & Hj).
  apply in_seq in Hj. rewrite batch_at_length.
  set (m := (List.length keys + batch_size - 1) / batch_size) in *.
  clearbody m. unfold batch_size in *. lia.
Qed.

(** The batches cut the key list into consecutive pieces: put end to end
    they are the key list, none is empty, none has more than 1000 keys, and
    there are [ceil(len(keys) / 1000)] of them. *)
Theorem batches_partition_the_keys :
  forall keys : list string,
    List.concat (batches keys) = keys /\
    Forall (fun batch => 1 <= List.length batch <= 1000) (batches keys) /\
    List.length (batches keys) = (List.length keys + 999) / 1000.
Proof.
  intros keys.
  split; [apply batches_concat|].
  split; [apply batches_sizes|].
  unfold batches, py_range. rewrite !length_map, length_seq.
  unfold batch_size. f_equal. lia.
Qed.

(** How far the loop gets: it sends the batches in order, one call each,
    and stops early only at a call that raises something other than a
    [ClientError], which it lets through. *)
Lemma delete_batches_progress (s3_client : S3Client) (bucket_name : string)
    (keys : list string) :
  forall starts successful failed tr,
  exists n outcome,
    delete_batches s3_client bucket_name keys starts successful failed tr
    = (outcome, tr ++ delete_calls bucket_name keys (firstn n starts)) /\
    n <= List.length starts /\
    match outcome with
    | Ok _ => n = List.length starts
    | Raise e =>
        (forall msg, e <> ClientError msg) /\
        exists m i,
          n = S m /\ nth_error starts m = Some i /\
          delete_objects_call s3_client
            (tr ++ delete_calls bucket_name keys (firstn m starts))
            bucket_name (batch_at keys i) = Raise e
    end.
Proof.
  induction starts as [|i rest IH]; intros successful failed tr.
  - exists 0, (Ok (successful, failed)). cbn. rewrite app_nil_r.
    split; [reflexivity|]. split; [apply Nat.le_refl | reflexivity].
  - assert (Hnext : forall successful1 failed1,
      exists n outcome,
        delete_batches s3_client bucket_name keys rest successful1 failed1
          (tr ++ [DeleteObjects bucket_name (batch_at keys i)])
        = (outcome, tr ++ delete_calls bucket_name keys (firstn n (i :: rest))) /\
        n <= List.length (i :: rest) /\
        match outcome with
        | Ok _ => n = List.length (i :: rest)
        | Raise e =>
            (forall msg, e <> ClientError msg) /\
            exists m i',
              n = S m /\ nth_error (i :: rest) m = Some i' /\
              delete_objects_call s3_client
                (tr ++ delete_calls bucket_name keys (firstn m (i :: rest)))
                bucket_name (batch_at keys i') = Raise e
        end).
    { intros successful1 failed1.
      destruct (IH successful1 failed1
                  (tr ++ [DeleteObjects bucket_name (batch_at keys i)]))
        as (n & outcome & Hrun & Hn & Hout).
      exists (S n), outcome. split; [|split].
      - rewrite Hrun. cbn [firstn delete_calls map].
        rewrite <- app_assoc. reflexivity.
      - cbn. lia.
      - destruct outcome as [counts|e]; [cbn; lia|].
        destruct Hout as (Hnot & m & i' & -> & Hnth & Hcall).
        split; [exact Hnot|].
        exists (S m), i'. split; [reflexivity|]. split; [exact Hnth|].
        cbn [firstn delete_calls map]. rewrite <- app_assoc in Hcall.
        exact Hcall. }
    cbn [delete_batches]. fold (batch_at keys i).
    destruct (delete_objects_call s3_client tr bucket_name (batch_at keys i))
      as [response|e] eqn:Hcall.
    + apply Hnext.
    + destruct e; try apply Hnext;
        (eexists 1, _; split;
         [reflexivity
         | split;
           [cbn; lia
           | split;
             [intros msg' H; discriminate H
             | exists 0, i; cbn; rewrite app_nil_r; auto]]]).
Qed.

Lemma delete_calls_batches (bucket_name : string) (keys : list string) (n : nat) :
  map (DeleteObjects bucket_name) (firstn n (batches keys))
  = delete_calls bucket_name keys
      (firstn n (py_range (List.length keys) batch_size)).
Proof.
  unfold batches, delete_calls. rewrite firstn_map, map_map. reflexivity.
Qed.

(** The calls of [delete_objects] are deletion calls for batches of its
    keys. *)
Lemma delete_objects_progress (s3_client : S3Client) (bucket_name : string)
    (keys : list string) (tr : trace) :
  exists n outcome,
    delete_objects s3_client bucket_name keys tr
    = (outcome,
       tr ++ map (DeleteObjects bucket_name) (firstn n (batches keys))).
Proof.
  destruct keys as [|key keys'].
  - exists 0, (Ok (0, 0)). cbn. rewrite app_nil_r. reflexivity.
  - destruct (delete_batches_progress s3_client bucket_name (key :: keys')
                (py_range (List.length (key :: keys')) batch_size) 0 0 tr)
      as (n & outcome & Hrun & _).
    exists n, outcome. rewrite delete_calls_batches. exact Hrun.
Qed.

(** Whatever the storage answers, [delete_objects] sends the batches in
    their order, one call each, and nothing else. When it returns it has
    sent them all; when it raises, the exception is that of its last call
    and is not a [ClientError]. *)
Theorem delete_objects_sends_batches_in_order :
  forall (s3_client : S3Client) (bucket_name : string) (keys : list string)
         (tr : trace),
  exists n outcome,
    delete_objects s3_client bucket_name keys tr
    = (outcome,
       tr ++ map (DeleteObjects bucket_name) (firstn n (batches keys))) /\
    n <= List.length (batches keys) /\
    match outcome with
    | Ok _ => n = List.length (batches keys)
    | Raise e =>
        (forall msg, e <> ClientError msg) /\
        exists m batch,
          n = S m /\ nth_error (batches keys) m = Some batch /\
          delete_objects_call s3_client
            (tr ++ map (DeleteObjects bucket_name) (firstn m (batches keys)))
            bucket_name batch = Raise e
    end.
Proof.
  intros s3_client bucket_name keys tr.
  assert (Hcalls : forall n,
             map (DeleteObjects bucket_name) (firstn n (batches keys))
             = delete_calls bucket_name keys
                 (firstn n (py_range (List.length keys) batch_size))).
  { intros n. unfold batches, delete_calls.
    rewrite firstn_map, map_map. reflexivity. }
  destruct keys as [|key keys'].
  - exists 0, (Ok (0, 0)). cbn. rewrite app_nil_r.
    split; [reflexivity|]. split; [apply Nat.le_0_l | reflexivity].
  - set (keys := key :: keys') in *.
    destruct (delete_batches_progress s3_client bucket_name keys
                (py_range (List.length keys) batch_size) 0 0 tr)
      as (n & outcome & Hrun & Hn & Hout).
    exists n, outcome.
    assert (Hlen : List.length (batches keys)
                   = List.length (py_range (List.length keys) batch_size))
      by (unfold batches; apply length_map).
    split; [|split].
    + rewrite Hcalls. exact Hrun.
    + rewrite Hlen. exact Hn.
    + destruct outcome as [counts|e]; [rewrite Hlen; exact Hout|].
      destruct Hout as (Hnot & m & i & -> & Hnth & Hcall).
      split; [exact Hnot|].
      exists m, (batch_at keys i). split; [reflexivity|]. split.
      * unfold batches. rewrite nth_error_map, Hnth. reflexivity.
      * rewrite Hcalls. exact Hcall.
Qed.

(** ** Strings *)

Lemma substring_whole (s : string) : substring 0 (String.length s) s = s.
Proof. induction s as [|c s IH]; cbn; [reflexivity | rewrite IH; reflexivity]. Qed.

Lemma substring_after (head s : string) (m : nat) :
  substring (String.length head) m (head ++ s) = substring 0 m s.
Proof. induction head as [|c head IH]; cbn; [reflexivity | exact IH]. Qed.

Lemma string_length_append (s1 s2 : string) :
  String.length (s1 ++ s2) = String.length s1 + String.length s2.
Proof. induction s1 as [|c s1 IH]; cbn; [reflexivity | rewrite IH; reflexivity]. Qed.

Lemma substring_split (s : string) :
  forall n, n <= String.length s ->
            s = (substring 0 n s ++ substring n (String.length s - n) s)%string.
Proof.
  induction s as [|c s IH]; intros n Hn.
  - destruct n; reflexivity.
  - destruct n as [|n].
    + cbn [substring append String.length Nat.sub].
      rewrite substring_whole. reflexivity.
    + cbn [substring append String.length Nat.sub].
      f_equal. apply IH. cbn in Hn. lia.
Qed.

(** [endswith] holds exactly of the strings that end with the suffix. *)
Lemma endswith_spec (s suffix : string) :
  endswith s suffix = true <-> exists head, s = (head ++ suffix)%string.
Proof.
  unfold endswith. split.
  - intros H. apply andb_true_iff in H. destruct H as [Hlen Heq].
    apply Nat.leb_le in Hlen. apply String.eqb_eq in Heq.
    exists (substring 0 (String.length s - String.length suffix) s).
    rewrite (substring_split s (String.length s - String.length suffix)) at 1
      by lia.
    replace (String.length s - (String.length s - String.length suffix))
      with (String.length suffix) by lia.
    rewrite Heq. reflexivity.
  - intros (head & ->). rewrite string_length_append.
    apply andb_true_iff. split; [apply Nat.leb_le; lia|].
    replace (String.length head + String.length suffix - String.length suffix)
      with (String.length head) by lia.
    rewrite substring_after, substring_whole. apply String.eqb_refl.
Qed.

(** ** The listing *)

(** What [collect_objects] keeps: the entries of the pages' ['Contents']
    whose key does not end with ['/']. *)
Lemma collect_objects_in (pages : list Page) (obj : BackupObject) :
  In obj (collect_objects pages) <->
  (exists page contents,
      In page pages /\ Contents page = Some contents /\ In obj contents) /\
  ~ is_folder_marker (Key obj).
Proof.
  unfold collect_objects. rewrite in_flat_map. split.
  - intros (page & Hpage & Hobj).
    destruct (Contents page) as [contents|] eqn:Hc; [|destruct Hobj].
    apply in_map_iff in Hobj. destruct Hobj as (obj' & <- & Hobj').
    apply filter_In in Hobj'. destruct Hobj' as [Hin Hkey].
    destruct obj' as [key modified]. cbn [Key LastModified] in *.
    split; [exists page, contents; auto|].
    intros Hmarker. apply endswith_spec in Hmarker.
    rewrite Hmarker in Hkey. discriminate Hkey.
  - intros ((page & contents & Hpage & Hc & Hin) & Hkey).
    exists page. split; [exact Hpage|]. rewrite Hc.
    apply in_map_iff. exists obj. split; [destruct obj; reflexivity|].
    apply filter_In. split; [exact Hin|].
    destruct (endswith (Key obj) "/") eqn:He; [|reflexivity].
    exfalso. apply Hkey, endswith_spec, He.
Qed.

Lemma collect_objects_length (pages : list Page) :
  List.length (collect_objects pages)
  <= list_sum (map (fun page => match Contents page with
                                | Some contents => List.length contents
                                | None => 0
                                end) pages).
Proof.
  induction pages as [|page pages IH]; [apply Nat.le_refl|].
  cbn [collect_objects flat_map map]. fold (collect_objects pages).
  rewrite length_app. unfold list_sum in *. cbn [fold_right].
  apply Nat.add_le_mono; [|exact IH].
  destruct (Contents page) as [contents|]; [|apply Nat.le_refl].
  rewrite length_map. apply filter_length_le.
Qed.

(** [list_backup_objects] makes one listing call. When the paginator
    delivers its pages, the method returns exactly the entries of the pages'
    ['Contents'] whose key does not end with ['/'], no more of them than the
    pages hold; a page without ['Contents'] contributes nothing. When the
    paginator raises, the method raises the same exception. *)
Theorem list_backup_objects_skips_folder_markers :
  forall (s3_client : S3Client) (bucket_name : string) (prefix : value)
         (tr : trace),
    exists outcome,
      list_backup_objects s3_client bucket_name prefix tr
      = (outcome, tr ++ [ListObjectsV2 bucket_name prefix]) /\
      match paginate s3_client tr bucket_name prefix with
      | Raise e => outcome = Raise e
      | Ok pages =>
          exists objects,
            outcome = Ok objects /\
            (forall obj,
                In obj objects <->
                (exists page contents,
                    In page pages /\ Contents page = Some contents /\
                    In obj contents) /\
                ~ is_folder_marker (Key obj)) /\
            List.length objects
            <= list_sum (map (fun page => match Contents page with
                                          | Some contents => List.length contents
                                          | None => 0
                                          end) pages)
      end.
Proof.
  intros s3_client bucket_name prefix tr.
  unfold list_backup_objects.
  destruct (paginate s3_client tr bucket_name prefix) as [pages|e];
    eexists; (split; [reflexivity|]); [|reflexivity].
  exists (collect_objects pages). split; [reflexivity|]. split.
  - intros obj. apply collect_objects_in.
  - apply collect_objects_length.
Qed.

(** ** The folder processor *)

Lemma in_firstn {A} (n : nat) (l : list A) (x : A) : In x (firstn n l) -> In x l.
Proof.
  intros H. rewrite <- (firstn_skipn n l). apply in_or_app. left. exact H.
Qed.

(** Whatever the fields of the policy are: keys that the loop returns
    beyond those it started with are keys of objects it went through. *)
Lemma retention_loop_keys (now : Z) (policy : BackupRetentionPolicy) :
  forall objs idx to_delete result,
    retention_loop now policy idx objs to_delete = Ok result ->
    exists marked,
      result = to_delete ++ map Key marked /\ incl marked objs /\
      List.length marked <= List.length objs.
Proof.
  induction objs as [|obj rest IH]; intros idx to_delete result H.
  - cbn in H. injection H as <-. exists []. cbn. rewrite app_nil_r.
    split; [reflexivity|]. split; [apply incl_nil_l | apply Nat.le_refl].
  - cbn [retention_loop] in H.
    destruct (py_lt (Z.of_nat idx) (min_backups_to_keep policy)) as [[|]|e];
      cbn [rbind] in H; try discriminate H.
    + destruct (IH _ _ _ H) as (marked & -> & Hincl & Hlen).
      exists marked. split; [reflexivity|].
      split; [apply incl_tl, Hincl | cbn; lia].
    + destruct (py_gt (age_days now obj) (days_to_keep policy)) as [[|]|e];
        cbn [rbind] in H; try discriminate H.
      * destruct (IH _ _ _ H) as (marked & -> & Hincl & Hlen).
        exists (obj :: marked). split; [cbn; rewrite <- app_assoc; reflexivity|].
        split; [|cbn; lia].
        intros x [<-|Hx]; [left; reflexivity | right; apply Hincl, Hx].
      * destruct (IH _ _ _ H) as (marked & -> & Hincl & Hlen).
        exists marked. split; [reflexivity|].
        split; [apply incl_tl, Hincl | cbn; lia].
Qed.

Lemma get_objects_to_delete_keys (now : Z) (objects : list BackupObject)
    (policy : BackupRetentionPolicy) (to_delete : list string) :
  get_objects_to_delete now objects policy = Ok to_delete ->
  incl to_delete (map Key objects) /\
  List.length to_delete <= List.length objects.
Proof.
  unfold get_objects_to_delete.
  destruct objects as [|x l].
  - intros H. injection H as <-. split; [apply incl_nil_l | apply Nat.le_refl].
  - intros H. apply retention_loop_keys in H.
    destruct H as (marked & -> & Hincl & Hlen).
    rewrite sorted_objects_length in Hlen. cbn [app].
    split; [|rewrite length_map; exact Hlen].
    intros key Hkey. apply in_map_iff in Hkey.
    destruct Hkey as (obj & <- & Hobj). apply in_map.
    apply (Permutation_in _ (sorted_objects_perm (x :: l))), Hincl, Hobj.
Qed.

Section FolderProcessor.

Variable s3_client : S3Client.
Variable utcnow : trace -> Z.
Variable bucket_name : string.

(** [process_folder] once the listing has delivered its pages. *)
Lemma process_folder_listed (policy : BackupRetentionPolicy) (tr : trace)
    (pages : list Page) :
  paginate s3_client tr bucket_name (folder policy) = Ok pages ->
  process_folder s3_client utcnow bucket_name policy tr
  = match get_objects_to_delete
            (utcnow (tr ++ [ListObjectsV2 bucket_name (folder policy)]))
            (collect_objects pages) policy with
    | Ok to_delete =>
        match delete_objects s3_client bucket_name to_delete
                (tr ++ [ListObjectsV2 bucket_name (folder policy)]) with
        | (Ok (successful, failed), tr') =>
            (Ok (FolderDone (folder policy) (List.length (collect_objects pages))
                            (List.length to_delete) successful failed), tr')
        | (Raise e, tr') => (Raise e, tr')
        end
    | Raise e => (Raise e, tr ++ [ListObjectsV2 bucket_name (folder policy)])
    end.
Proof.
  intros Hpages. unfold process_folder, bind, list_backup_objects.
  rewrite Hpages.
  destruct (get_objects_to_delete _ _ _) as [to_delete|e]; [|reflexivity].
  destruct (delete_objects _ _ _ _) as [[[successful failed]|e] tr'];
    reflexivity.
Qed.

(** When every call is answered for every key of its batch, or rejected as
    a whole, [delete_objects] returns and accounts for every key. *)
Lemma delete_objects_accounting (keys : list string) (tr : trace) :
  (forall tr' batch,
      answers_every_key (delete_objects_call s3_client tr' bucket_name batch) batch) ->
  exists successful failed,
    delete_objects s3_client bucket_name keys tr
    = (Ok (successful, failed),
       tr ++ map (DeleteObjects bucket_name) (batches keys)) /\
    successful + failed = List.length keys.
Proof.
  intros Hanswers. destruct keys as [|key keys'].
  - exists 0, 0. cbn. rewrite app_nil_r. split; reflexivity.
  - set (keys := key :: keys') in *.
    destruct (delete_batches_accounting s3_client bucket_name keys
                (py_range (List.length keys) batch_size) 0 0 tr)
      as (successful & failed & Hrun & Hsum).
    + intros j i _. apply Hanswers.
    + exists successful, failed. split.
      * unfold batches. rewrite map_map. exact Hrun.
      * rewrite Hsum, batches_cover. reflexivity.
Qed.

End FolderProcessor.

(** [process_folder] only ever asks to delete what it has just listed: after
    its listing call, every call it makes is a deletion in the same bucket of
    a non-empty batch of keys, each of them the key of a listed object and
    none of them a folder marker. This holds for every policy, whatever its
    fields are, and whatever the storage answers. *)
Theorem process_folder_deletes_only_listed_keys :
  forall (s3_client : S3Client) (utcnow : trace -> Z) (bucket_name : string)
         (policy : BackupRetentionPolicy) (tr : trace) (pages : list Page),
    paginate s3_client tr bucket_name (folder policy) = Ok pages ->
    exists outcome calls,
      process_folder s3_client utcnow bucket_name policy tr
      = (outcome, tr ++ ListObjectsV2 bucket_name (folder policy) :: calls) /\
      Forall (fun c =>
                exists keys,
                  c = DeleteObjects bucket_name keys /\ keys <> [] /\
                  forall key,
                    In key keys ->
                    In key (map Key (collect_objects pages)) /\
                    ~ is_folder_marker key)
             calls.
Proof.
  intros s3_client utcnow bucket_name policy tr pages Hpages.
  rewrite (process_folder_listed _ _ _ _ _ _ Hpages).
  set (tr1 := tr ++ [ListObjectsV2 bucket_name (folder policy)]).
  assert (Htr : forall calls,
             tr1 ++ calls = tr ++ ListObjectsV2 bucket_name (folder policy) :: calls).
  { intros calls. unfold tr1. rewrite <- app_assoc. reflexivity. }
  destruct (get_objects_to_delete (utcnow tr1) (collect_objects pages) policy)
    as [to_delete|e] eqn:Heval.
  - destruct (delete_objects_progress s3_client bucket_name to_delete tr1)
      as (n & outcome & Hrun).
    rewrite Hrun, Htr.
    assert (Hcalls :
      Forall (fun c =>
                exists keys,
                  c = DeleteObjects bucket_name keys /\ keys <> [] /\
                  forall key,
                    In key keys ->
                    In key (map Key (collect_objects pages)) /\
                    ~ is_folder_marker key)
             (map (DeleteObjects bucket_name) (firstn n (batches to_delete)))).
    { apply Forall_forall. intros c Hc.
      apply in_map_iff in Hc. destruct Hc as (batch & <- & Hbatch).
      apply in_firstn in Hbatch.
      pose proof (batches_concat to_delete) as Hconcat.
      pose proof (batches_sizes to_delete) as Hsizes.
      exists batch. split; [reflexivity|]. split.
      - rewrite Forall_forall in Hsizes. specialize (Hsizes batch Hbatch).
        intros ->. cbn in Hsizes. lia.
      - intros key Hkey.
        assert (Hin : In key to_delete).
        { rewrite <- Hconcat. apply in_concat. exists batch. auto. }
        apply (proj1 (get_objects_to_delete_keys _ _ _ _ Heval)) in Hin.
        split; [exact Hin|].
        apply in_map_iff in Hin. destruct Hin as (obj & <- & Hobj).
        apply collect_objects_in in Hobj. apply Hobj. }
    destruct outcome as [[successful failed]|e]; eexists _, _; split;
      try reflexivity; exact Hcalls.
  - exists (Raise e), []. rewrite <- Htr, app_nil_r.
    split; [reflexivity | constructor].
Qed.

Lemma process_folder_deletes_only_listed_keys_witness :
  exists outcome calls,
    process_folder first_folder_unlistable sample_utcnow "test-bucket"
      (retention_policy (VStr "b/") 30 2) []
    = (outcome, [] ++ ListObjectsV2 "test-bucket" (VStr "b/") :: calls) /\
    Forall (fun c =>
              exists keys,
                c = DeleteObjects "test-bucket" keys /\ keys <> [] /\
                forall key,
                  In key keys ->
                  In key (map Key
                            (collect_objects
                               [ {| Contents := Some ({| Key := "b/";
                                                         LastModified := sample_now |}
                                                      :: sample_objects) |};
                                 {| Contents := None |} ])) /\
                  ~ is_folder_marker key)
           calls.
Proof.
  apply (process_folder_deletes_only_listed_keys first_folder_unlistable
           sample_utcnow "test-bucket" (retention_policy (VStr "b/") 30 2) []).
  reflexivity.
Defined.

(** When the listing fails, [process_folder] raises the exception of the
    listing, whatever it is, and has made the listing call only: nothing is
    evaluated and no deletion is attempted. *)
Theorem process_folder_listing_failure :
  forall (s3_client : S3Client) (utcnow : trace -> Z) (bucket_name : string)
         (policy : BackupRetentionPolicy) (tr : trace) (e : exn),
    paginate s3_client tr bucket_name (folder policy) = Raise e ->
    process_folder s3_client utcnow bucket_name policy tr
    = (Raise e, tr ++ [ListObjectsV2 bucket_name (folder policy)]).
Proof.
  intros s3_client utcnow bucket_name policy tr e Hlist.
  unfold process_folder, bind, list_backup_objects.
  rewrite Hlist. reflexivity.
Qed.

Lemma process_folder_listing_failure_witness :
  process_folder first_folder_unlistable sample_utcnow "test-bucket"
    (retention_policy (VStr "a/") 30 2) []
  = (Raise (ClientError "An error occurred (AccessDenied) when calling the ListObjectsV2 operation: Access Denied"),
     [ListObjectsV2 "test-bucket" (VStr "a/")]).
Proof.
  apply (process_folder_listing_failure first_folder_unlistable sample_utcnow
           "test-bucket" (retention_policy (VStr "a/") 30 2) []).
  reflexivity.
Defined.

(** With an integer policy and a storage that answers every deletion call
    for every key of its batch (or rejects the call as a whole),
    [process_folder] returns its result, and the result adds up:
    [total_objects] is the number of listed objects, [objects_to_delete] is
    [deleted + failed] and is at most [max(0, total_objects -
    min_backups_to_keep)]. *)
Theorem process_folder_result_adds_up :
  forall (s3_client : S3Client) (utcnow : trace -> Z) (bucket_name : string)
         (f : value) (d k : Z) (tr : trace) (pages : list Page),
    paginate s3_client tr bucket_name f = Ok pages ->
    (forall tr' batch,
        answers_every_key (delete_objects_call s3_client tr' bucket_name batch)
                          batch) ->
    exists objects_to_delete deleted failed tr',
      process_folder s3_client utcnow bucket_name (retention_policy f d k) tr
      = (Ok (FolderDone f (List.length (collect_objects pages))
                        objects_to_delete deleted failed), tr') /\
      deleted + failed = objects_to_delete /\
      (Z.of_nat objects_to_delete
       <= Z.max 0 (Z.of_nat (List.length (collect_objects pages)) - k))%Z.
Proof.
  intros s3_client utcnow bucket_name f d k tr pages Hpages Hanswers.
  rewrite (process_folder_listed s3_client utcnow bucket_name
             (retention_policy f d k) tr pages Hpages).
  rewrite get_objects_to_delete_integers.
  match goal with
  | |- context [delete_objects _ _ ?keys ?tr1] =>
      destruct (delete_objects_accounting s3_client bucket_name keys tr1 Hanswers)
        as (successful & failed & Hrun & Hsum)
  end.
  rewrite Hrun. eexists _, successful, failed, _.
  split; [reflexivity|]. split; [exact Hsum|].
  rewrite length_map.
  pose proof (filter_length_le (too_old
                 (utcnow (tr ++ [ListObjectsV2 bucket_name
                                   (folder (retention_policy f d k))])) d)
                (skipn (Z.to_nat k) (sorted_objects (collect_objects pages))))
    as Hle.
  rewrite length_skipn, sorted_objects_length in Hle. lia.
Qed.

Lemma process_folder_result_adds_up_witness :
  exists objects_to_delete deleted failed tr',
    process_folder first_folder_unlistable sample_utcnow "test-bucket"
      (retention_policy (VStr "b/") 30 2) []
    = (Ok (FolderDone (VStr "b/") 5 objects_to_delete deleted failed), tr') /\
    deleted + failed = objects_to_delete /\
    (Z.of_nat objects_to_delete <= Z.max 0 (Z.of_nat 5 - 2))%Z.
Proof.
  apply (process_folder_result_adds_up first_folder_unlistable sample_utcnow
           "test-bucket" (VStr "b/") 30 2 []
           [ {| Contents := Some ({| Key := "b/"; LastModified := sample_now |}
                                  :: sample_objects) |};
             {| Contents := None |} ]).
  - reflexivity.
  - intros tr' batch. cbn. apply Nat.add_0_r.
Defined.

(** A folder that holds no more objects than [min_backups_to_keep] is left
    alone: [process_folder] makes its listing call and no other, and reports
    nothing to delete, however old the objects are. *)
Theorem small_folder_is_left_alone :
  forall (s3_client : S3Client) (utcnow : trace -> Z) (bucket_name : string)
         (f : value) (d k : Z) (tr : trace) (pages : list Page),
    paginate s3_client tr bucket_name f = Ok pages ->
    (Z.of_nat (List.length (collect_objects pages)) <= k)%Z ->
    process_folder s3_client utcnow bucket_name (retention_policy f d k) tr
    = (Ok (FolderDone f (List.length (collect_objects pages)) 0 0 0),
       tr ++ [ListObjectsV2 bucket_name f]).
Proof.
  intros s3_client utcnow bucket_name f d k tr pages Hpages Hsmall.
  rewrite (process_folder_listed s3_client utcnow bucket_name
             (retention_policy f d k) tr pages Hpages).
  rewrite get_objects_to_delete_integers.
  rewrite skipn_all2 by (rewrite sorted_objects_length; lia).
  reflexivity.
Qed.

Lemma small_folder_is_left_alone_witness :
  process_folder first_folder_unlistable sample_utcnow "test-bucket"
    (retention_policy (VStr "b/") 0 5) []
  = (Ok (FolderDone (VStr "b/") 5 0 0 0),
     [ListObjectsV2 "test-bucket" (VStr "b/")]).
Proof.
  apply (small_folder_is_left_alone first_folder_unlistable sample_utcnow
           "test-bucket" (VStr "b/") 0 5 []
           [ {| Contents := Some ({| Key := "b/"; LastModified := sample_now |}
                                  :: sample_objects) |};
             {| Contents := None |} ]).
  - reflexivity.
  - vm_compute. discriminate.
Defined.

(** A [min_backups_to_keep] that is not a number (a string, [null], a list
    or an object in the configuration) is not noticed when the policy is
    loaded: the folder is listed, and if it holds any object the comparison
    [idx < min_backups_to_keep] raises a [TypeError], so [process_folder]
    raises after its listing call and deletes nothing. An empty folder gives
    the normal result. *)
Theorem non_numeric_minimum_fails_the_folder :
  forall (s3_client : S3Client) (utcnow : trace -> Z) (bucket_name : string)
         (policy : BackupRetentionPolicy) (tr : trace) (pages : list Page),
    paginate s3_client tr bucket_name (folder policy) = Ok pages ->
    is_number (min_backups_to_keep policy) = false ->
    (collect_objects pages <> [] ->
     exists msg,
       process_folder s3_client utcnow bucket_name policy tr
       = (Raise (TypeError msg),
          tr ++ [ListObjectsV2 bucket_name (folder policy)])) /\
    (collect_objects pages = [] ->
     process_folder s3_client utcnow bucket_name policy tr
     = (Ok (FolderDone (folder policy) 0 0 0 0),
        tr ++ [ListObjectsV2 bucket_name (folder policy)])).
Proof.
  intros s3_client utcnow bucket_name policy tr pages Hpages Hnum.
  rewrite (process_folder_listed s3_client utcnow bucket_name policy tr pages
             Hpages).
  split.
  - intros Hsome.
    destruct (collect_objects pages) as [|x l] eqn:Hobjs; [contradiction|].
    unfold get_objects_to_delete.
    pose proof (sorted_objects_length (x :: l)) as Hlen.
    destruct (sorted_objects (x :: l)) as [|y rest]; [discriminate Hlen|].
    cbn [retention_loop]. unfold py_lt, compare_int.
    destruct (min_backups_to_keep policy); try discriminate Hnum;
      eexists; reflexivity.
  - intros ->. reflexivity.
Qed.

Lemma non_numeric_minimum_fails_the_folder_witness :
  exists msg,
    process_folder first_folder_unlistable sample_utcnow "test-bucket"
      {| folder := VStr "b/"; days_to_keep := VInt 30;
         min_backups_to_keep := VStr "3" |} []
    = (Raise (TypeError msg), [ListObjectsV2 "test-bucket" (VStr "b/")]).
Proof.
  destruct (non_numeric_minimum_fails_the_folder first_folder_unlistable
              sample_utcnow "test-bucket"
              {| folder := VStr "b/"; days_to_keep := VInt 30;
                 min_backups_to_keep := VStr "3" |} []
              [ {| Contents := Some ({| Key := "b/"; LastModified := sample_now |}
                                     :: sample_objects) |};
                {| Contents := None |} ])
    as [Hraise _].
  - reflexivity.
  - reflexivity.
  - apply Hraise. vm_compute. discriminate.
Defined.

(** ** Loading the configuration *)

Lemma build_policies_of_records :
  forall policies acc,
    build_policies (map policy_record policies) acc = Ok (acc ++ policies).
Proof.
  induction policies as [|p ps IH]; intros acc.
  - cbn. rewrite app_nil_r. reflexivity.
  - cbn [map].
    assert (Hstep : build_policies (policy_record p :: map policy_record ps) acc
                    = build_policies (map policy_record ps) (acc ++ [p]))
      by (destruct p; reflexivity).
    rewrite Hstep, IH, <- app_assoc. reflexivity.
Qed.

(** Loading is the inverse of writing the policies down: a document whose
    [retention_policies] lists, for each policy, the record with its three
    fields is parsed into exactly these policies, in the same order, with the
    field values as they stand. *)
Theorem parse_policies_round_trip :
  forall (items : list (string * value)) (policies : list BackupRetentionPolicy),
    dict_get "retention_policies" items = Some (VList (map policy_record policies)) ->
    parse_policies (VDict items) = Ok policies.
Proof.
  intros items policies Hkey.
  unfold parse_policies, py_in, subscript. rewrite Hkey.
  cbn [rbind iterate]. apply build_policies_of_records.
Qed.

Lemma parse_policies_round_trip_witness :
  parse_policies
    (VDict [("version", VInt 1);
            ("retention_policies",
             VList (map policy_record
                        [retention_policy (VStr "a/") 30 2;
                         retention_policy (VStr "b/") 7 1]))])
  = Ok [retention_policy (VStr "a/") 30 2; retention_policy (VStr "b/") 7 1].
Proof.
  apply (parse_policies_round_trip
           [("version", VInt 1);
            ("retention_policies",
             VList (map policy_record
                        [retention_policy (VStr "a/") 30 2;
                         retention_policy (VStr "b/") 7 1]))]).
  reflexivity.
Defined.

Lemma build_policies_of_fields :
  forall (records : list (list (string * value))) acc,
    Forall (fun fields => dict_get "folder" fields <> None) records ->
    build_policies (map VDict records) acc
    = Ok (acc ++
          map (fun fields =>
                 {| folder := match dict_get "folder" fields with
                              | Some v => v
                              | None => VNone
                              end;
                    days_to_keep := dict_get_default "days_to_keep" (VInt 30) fields;
                    min_backups_to_keep :=
                      dict_get_default "min_backups_to_keep" (VInt 3) fields |})
              records).
Proof.
  induction records as [|fields rest IH]; intros acc Hall.
  - cbn. rewrite app_nil_r. reflexivity.
  - inversion Hall as [|? ? Hfolder Hrest]; subst.
    cbn [map build_policies subscript].
    destruct (dict_get "folder" fields) as [v|]; [|contradiction Hfolder; reflexivity].
    cbn [rbind]. rewrite (IH _ Hrest), <- app_assoc. reflexivity.
Qed.

(** One policy per record, in the order of the document: its folder is the
    record's [folder], its [days_to_keep] is the record's or 30 when the
    record has none, its [min_backups_to_keep] is the record's or 3 when
    the record has none. The values are taken as they are, whatever their
    type. *)
Theorem missing_fields_take_defaults :
  forall (items : list (string * value))
         (records : list (list (string * value))),
    dict_get "retention_policies" items = Some (VList (map VDict records)) ->
    Forall (fun fields => dict_get "folder" fields <> None) records ->
    exists policies,
      parse_policies (VDict items) = Ok policies /\
      List.length policies = List.length records /\
      forall i fields,
        nth_error records i = Some fields ->
        exists policy,
          nth_error policies i = Some policy /\
          dict_get "folder" fields = Some (folder policy) /\
          days_to_keep policy
          = match dict_get "days_to_keep" fields with
            | Some v => v
            | None => VInt 30
            end /\
          min_backups_to_keep policy
          = match dict_get "min_backups_to_keep" fields with
            | Some v => v
            | None => VInt 3
            end.
Proof.
  intros items records Hkey Hall.
  eexists. split; [|split].
  - unfold parse_policies, py_in, subscript. rewrite Hkey.
    cbn [rbind iterate]. apply (build_policies_of_fields records [] Hall).
  - cbn [app]. apply length_map.
  - intros i fields Hi. cbn [app].
    eexists. split; [apply map_nth_error, Hi|].
    cbn [folder days_to_keep min_backups_to_keep].
    rewrite Forall_forall in Hall.
    specialize (Hall fields (nth_error_In _ _ Hi)).
    destruct (dict_get "folder" fields); [|contradiction Hall; reflexivity].
    repeat split; reflexivity.
Qed.

Lemma missing_fields_take_defaults_witness :
  exists policies,
    parse_policies
      (VDict [("retention_policies",
               VList (map VDict [[("folder", VStr "a/")];
                                 [("folder", VStr "b/"); ("days_to_keep", VInt 7)]]))])
    = Ok policies /\
    List.length policies = 2 /\
    exists policy,
      nth_error policies 0 = Some policy /\
      days_to_keep policy = VInt 30 /\ min_backups_to_keep policy = VInt 3.
Proof.
  destruct (missing_fields_take_defaults
              [("retention_policies",
                VList (map VDict [[("folder", VStr "a/")];
                                  [("folder", VStr "b/"); ("days_to_keep", VInt 7)]]))]
              [[("folder", VStr "a/")];
               [("folder", VStr "b/"); ("days_to_keep", VInt 7)]])
    as (policies & Hparse & Hlen & Hnth).
  - reflexivity.
  - repeat constructor; discriminate.
  - exists policies. split; [exact Hparse|]. split; [exact Hlen|].
    destruct (Hnth 0 [("folder", VStr "a/")] eq_refl)
      as (policy & Hp & _ & Hdays & Hmin).
    exists policy. split; [exact Hp|]. split; [exact Hdays | exact Hmin].
Defined.

Lemma prefix_append (head rest : string) : prefix head (head ++ rest) = true.
Proof.
  induction head as [|c head IH]; cbn.
  - destruct rest; reflexivity.
  - destruct (ascii_dec c c) as [_|Hne]; [exact IH | contradiction Hne; reflexivity].
Qed.

Lemma split_slash_no_slash (bucket : string) :
  no_slash bucket -> split_slash bucket = (bucket, None).
Proof.
  unfold no_slash. induction bucket as [|c bucket IH]; intros H; [reflexivity|].
  cbn [split_slash]. cbn [list_ascii_of_string] in H.
  destruct (Ascii.eqb_spec c "/") as [->|Hc].
  - exfalso. apply H. left. reflexivity.
  - rewrite IH; [reflexivity|]. intros Hin. apply H. right. exact Hin.
Qed.

Lemma split_slash_at_first_slash (bucket key : string) :
  no_slash bucket ->
  split_slash (bucket ++ String "/" key) = (bucket, Some key).
Proof.
  unfold no_slash. induction bucket as [|c bucket IH]; intros H; [reflexivity|].
  cbn [append split_slash]. cbn [list_ascii_of_string] in H.
  destruct (Ascii.eqb_spec c "/") as [->|Hc].
  - exfalso. apply H. left. reflexivity.
  - rewrite IH; [reflexivity|]. intros Hin. apply H. right. exact Hin.
Qed.

Lemma prefix_s3 (rest : string) : prefix "s3://" ("s3://" ++ rest) = true.
Proof. apply prefix_append. Qed.

Lemma read_config_data_s3 (s3_client : S3Client)
    (json_loads : string -> result value) (bucket key : string) (tr : trace) :
  no_slash bucket ->
  read_config_data s3_client json_loads ("s3://" ++ bucket ++ String "/" key) tr
  = (match get_object s3_client tr bucket key with
     | Ok text => json_loads text
     | Raise e => Raise e
     end,
     tr ++ [GetObject bucket key]).
Proof.
  intros Hbucket. unfold read_config_data. rewrite prefix_s3.
  change (drop 5 ("s3://" ++ bucket ++ String "/" key))
    with (bucket ++ String "/" key)%string.
  rewrite (split_slash_at_first_slash bucket key Hbucket). cbn [fst snd].
  destruct (get_object s3_client tr bucket key); reflexivity.
Qed.

(** An [s3://bucket/key] configuration source is fetched with one
    [get_object] call for that bucket and key (the key may itself contain
    ['/']); without a ['/'] after the bucket the key is [config.json]. The
    fetched text is decoded, and whatever the fetch or the decoder raises is
    raised. *)
Theorem s3_configuration_source_is_fetched :
  forall (s3_client : S3Client) (json_loads : string -> result value)
         (bucket key : string) (tr : trace),
    no_slash bucket ->
    read_config_data s3_client json_loads ("s3://" ++ bucket ++ String "/" key) tr
    = (match get_object s3_client tr bucket key with
       | Ok text => json_loads text
       | Raise e => Raise e
       end,
       tr ++ [GetObject bucket key]) /\
    read_config_data s3_client json_loads ("s3://" ++ bucket) tr
    = (match get_object s3_client tr bucket "config.json" with
       | Ok text => json_loads text
       | Raise e => Raise e
       end,
       tr ++ [GetObject bucket "config.json"]).
Proof.
  intros s3_client json_loads bucket key tr Hbucket.
  split; [apply read_config_data_s3, Hbucket|].
  unfold read_config_data. rewrite prefix_s3.
  change (drop 5 ("s3://" ++ bucket)) with bucket.
  rewrite (split_slash_no_slash bucket Hbucket). cbn [fst snd].
  destruct (get_object s3_client tr bucket "config.json"); reflexivity.
Qed.

Lemma s3_configuration_source_is_fetched_witness :
  read_config_data first_folder_unlistable json_loads_reference
    "s3://config-bucket/prod/config.json" []
  = (Raise (ClientError "NoSuchKey"),
     [GetObject "config-bucket" "prod/config.json"]).
Proof.
  destruct (s3_configuration_source_is_fetched first_folder_unlistable
              json_loads_reference "config-bucket" "prod/config.json" [])
    as [Hkey _].
  - unfold no_slash. cbn. intuition discriminate.
  - exact Hkey.
Defined.

(** ** More on the handler *)

Section HandlerRuns.

Variable s3_client : S3Client.
Variable json_loads : string -> result value.
Variable utcnow : trace -> Z.

(** The [try] block, by what loading the configuration gives. *)
Lemma run_cleanup_cases (bucket config : string) (tr : trace) :
  run_cleanup s3_client json_loads utcnow bucket config tr
  = match load_retention_config s3_client json_loads config tr with
    | (Ok [], tr0) =>
        (Ok {| statusCode := 200;
               body := NoPoliciesBody "No retention policies configured" [] |},
         tr0)
    | (Ok (policy :: rest), tr0) =>
        (Ok {| statusCode := 200;
               body :=
                 SummaryBody "Backup cleanup completed"
                   (list_sum (map deleted
                      (fst (process_policies s3_client utcnow bucket
                              (policy :: rest) [] tr0))))
                   (list_sum (map failed
                      (fst (process_policies s3_client utcnow bucket
                              (policy :: rest) [] tr0))))
                   (fst (process_policies s3_client utcnow bucket
                           (policy :: rest) [] tr0)) |},
         snd (process_policies s3_client utcnow bucket (policy :: rest) [] tr0))
    | (Raise e, tr0) => (Raise e, tr0)
    end.
Proof.
  unfold run_cleanup, bind.
  destruct (load_retention_config s3_client json_loads config tr)
    as [[[|policy rest]|e] tr0]; try reflexivity.
  destruct (process_policies s3_client utcnow bucket (policy :: rest) [] tr0).
  reflexivity.
Qed.

(** The calls of [process_folder] are a listing and deletions in its
    bucket. *)
Lemma process_folder_calls (bucket : string) (policy : BackupRetentionPolicy)
    (tr : trace) :
  exists outcome calls,
    process_folder s3_client utcnow bucket policy tr = (outcome, tr ++ calls) /\
    Forall (works_on_bucket bucket) calls.
Proof.
  destruct (paginate s3_client tr bucket (folder policy)) as [pages|e] eqn:Hlist.
  - rewrite (process_folder_listed _ _ _ _ _ _ Hlist).
    destruct (get_objects_to_delete _ _ _) as [to_delete|e].
    + match goal with
      | |- context [delete_objects _ _ _ ?tr1] =>
          destruct (delete_objects_progress s3_client bucket to_delete tr1)
            as (n & outcome & Hrun)
      end.
      rewrite Hrun, <- app_assoc.
      assert (Hcalls : Forall (works_on_bucket bucket)
                         ([ListObjectsV2 bucket (folder policy)]
                          ++ map (DeleteObjects bucket)
                               (firstn n (batches to_delete)))).
      { constructor; [reflexivity|].
        apply Forall_forall. intros c Hc.
        apply in_map_iff in Hc. destruct Hc as (batch & <- & _). reflexivity. }
      destruct outcome as [[successful failed]|e]; eexists _, _; split;
        try reflexivity; exact Hcalls.
    + eexists _, _. split; [reflexivity|]. constructor; [reflexivity|constructor].
  - unfold process_folder, bind, list_backup_objects. rewrite Hlist.
    eexists _, _. split; [reflexivity|]. constructor; [reflexivity|constructor].
Qed.

Lemma process_policies_calls (bucket : string) :
  forall policies results tr,
  exists calls,
    snd (process_policies s3_client utcnow bucket policies results tr)
    = tr ++ calls /\
    Forall (works_on_bucket bucket) calls.
Proof.
  induction policies as [|policy rest IH]; intros results tr.
  - exists []. cbn. rewrite app_nil_r. split; [reflexivity | constructor].
  - rewrite process_policies_cons.
    destruct (process_folder_calls bucket policy tr)
      as (outcome & calls & Hrun & Hcalls).
    rewrite Hrun. cbn [fst snd].
    destruct (IH (results ++ [folder_entry policy outcome]) (tr ++ calls))
      as (calls' & Hrest & Hcalls').
    exists (calls ++ calls'). split.
    + rewrite Hrest, <- app_assoc. reflexivity.
    + apply Forall_app. split; assumption.
Qed.

End HandlerRuns.

(** The status code tells what happened: it is 400 exactly when
    [BUCKET_NAME] or [RETENTION_CONFIG] is missing or empty; with both
    present it is 500 exactly when [load_retention_config] raises, and 200
    otherwise. So once the policies are loaded, nothing that the storage
    answers or raises makes the run fail. *)
Theorem status_code_tells_what_happened :
  forall (s3_client : S3Client) (json_loads : string -> result value)
         (utcnow : trace -> Z) (environ : Environ) (tr : trace),
    (statusCode (fst (lambda_handler s3_client json_loads utcnow environ tr)) = 400%Z
     <-> not_set (BUCKET_NAME environ) = true \/
         not_set (RETENTION_CONFIG environ) = true) /\
    (forall bucket config,
        BUCKET_NAME environ = Some bucket -> bucket <> "" ->
        RETENTION_CONFIG environ = Some config -> config <> "" ->
        (statusCode (fst (lambda_handler s3_client json_loads utcnow environ tr))
         = 500%Z
         <-> exists e,
               fst (load_retention_config s3_client json_loads config tr)
               = Raise e) /\
        (statusCode (fst (lambda_handler s3_client json_loads utcnow environ tr))
         = 200%Z
         <-> exists policies,
               fst (load_retention_config s3_client json_loads config tr)
               = Ok policies)).
Proof.
  intros s3_client json_loads utcnow environ tr.
  assert (Hset : forall bucket config,
             BUCKET_NAME environ = Some bucket -> bucket <> "" ->
             RETENTION_CONFIG environ = Some config -> config <> "" ->
             statusCode (fst (lambda_handler s3_client json_loads utcnow environ tr))
             = match fst (load_retention_config s3_client json_loads config tr) with
               | Ok _ => 200%Z
               | Raise _ => 500%Z
               end).
  { intros bucket config Hb Hb' Hc Hc'.
    rewrite (lambda_handler_configured _ _ _ _ _ _ _ Hb Hb' Hc Hc').
    rewrite run_cleanup_cases.
    destruct (load_retention_config s3_client json_loads config tr)
      as [[[|policy rest]|e] tr0]; reflexivity. }
  split.
  - unfold lambda_handler.
    destruct (not_set (BUCKET_NAME environ)) eqn:Hb;
      [split; [left; reflexivity | reflexivity]|].
    destruct (not_set (RETENTION_CONFIG environ)) eqn:Hc;
      [split; [right; reflexivity | reflexivity]|].
    rewrite run_cleanup_cases.
    destruct (load_retention_config _ _ _ _) as [[[|policy rest]|e] tr0];
      cbn [fst statusCode]; (split; [discriminate | intros [H|H]; discriminate H]).
  - intros bucket config Hb Hb' Hc Hc'.
    rewrite (Hset bucket config Hb Hb' Hc Hc').
    destruct (fst (load_retention_config s3_client json_loads config tr))
      as [policies|e]; split; split;
      try discriminate; try (intros (x & Hx); discriminate Hx); eauto.
Qed.

Lemma status_code_tells_what_happened_witness :
  statusCode (fst (lambda_handler unreachable json_loads_reference sample_utcnow
                     (sample_environ two_folder_config) [])) = 200%Z.
Proof.
  destruct (status_code_tells_what_happened unreachable json_loads_reference
              sample_utcnow (sample_environ two_folder_config) [])
    as [_ Hset].
  destruct (Hset "test-bucket" two_folder_config) as [_ Hok].
  - reflexivity.
  - discriminate.
  - reflexivity.
  - discriminate.
  - apply Hok. eexists. vm_compute. reflexivity.
Defined.

(** When the configuration cannot be fetched from its [s3://bucket/key]
    source, whatever the fetch raises, the handler returns the 500 response
    with the message of that exception, having made the one [get_object]
    call: no folder is listed and nothing is deleted. *)
Theorem unfetchable_configuration_is_internal_error :
  forall (s3_client : S3Client) (json_loads : string -> result value)
         (utcnow : trace -> Z) (environ : Environ)
         (bucket config_bucket config_key : string) (tr : trace) (e : exn),
    BUCKET_NAME environ = Some bucket -> bucket <> "" ->
    RETENTION_CONFIG environ
    = Some ("s3://" ++ config_bucket ++ String "/" config_key)%string ->
    no_slash config_bucket ->
    get_object s3_client tr config_bucket config_key = Raise e ->
    lambda_handler s3_client json_loads utcnow environ tr
    = ({| statusCode := 500;
          body := InternalErrorBody "Internal server error" (str e) |},
       tr ++ [GetObject config_bucket config_key]).
Proof.
  intros s3_client json_loads utcnow environ bucket config_bucket config_key
         tr e Hb Hb' Hc Hslash Hget.
  rewrite (lambda_handler_configured _ _ _ _ _ _ _ Hb Hb' Hc)
    by discriminate.
  rewrite run_cleanup_cases. unfold load_retention_config, bind.
  rewrite (read_config_data_s3 s3_client json_loads config_bucket
             config_key tr Hslash).
  rewrite Hget. reflexivity.
Qed.

Lemma unfetchable_configuration_is_internal_error_witness :
  lambda_handler first_folder_unlistable json_loads_reference sample_utcnow
    (sample_environ "s3://config-bucket/prod/config.json") []
  = ({| statusCode := 500;
        body := InternalErrorBody "Internal server error" "NoSuchKey" |},
     [GetObject "config-bucket" "prod/config.json"]).
Proof.
  apply (unfetchable_configuration_is_internal_error first_folder_unlistable
           json_loads_reference sample_utcnow
           (sample_environ "s3://config-bucket/prod/config.json")
           "test-bucket" "config-bucket" "prod/config.json" []
           (ClientError "NoSuchKey")).
  - reflexivity.
  - discriminate.
  - reflexivity.
  - unfold no_slash. cbn. intuition discriminate.
  - reflexivity.
Defined.

(** A [retention_policies] that is present but has nothing to iterate over
    (an empty list, and likewise an empty object or an empty string) gives
    no policy, and the handler answers as for a missing key: 200, "No
    retention policies configured", no results, no further call. *)
Theorem empty_retention_policies_is_success :
  forall (s3_client : S3Client) (json_loads : string -> result value)
         (utcnow : trace -> Z) (environ : Environ) (bucket config : string)
         (items : list (string * value)) (section : value) (tr tr' : trace),
    BUCKET_NAME environ = Some bucket -> bucket <> "" ->
    RETENTION_CONFIG environ = Some config -> config <> "" ->
    read_config_data s3_client json_loads config tr = (Ok (VDict items), tr') ->
    dict_get "retention_policies" items = Some section ->
    section = VList [] \/ section = VDict [] \/ section = VStr "" ->
    load_retention_config s3_client json_loads config tr = (Ok [], tr') /\
    lambda_handler s3_client json_loads utcnow environ tr
    = ({| statusCode := 200;
          body := NoPoliciesBody "No retention policies configured" [] |},
       tr').
Proof.
  intros s3_client json_loads utcnow environ bucket config items section tr tr'
         Hb Hb' Hc Hc' Hread Hkey Hempty.
  assert (Hload : load_retention_config s3_client json_loads config tr
                  = (Ok [], tr')).
  { unfold load_retention_config, bind. rewrite Hread.
    unfold lift, parse_policies, py_in, subscript. rewrite Hkey.
    destruct Hempty as [->|[->| ->]]; reflexivity. }
  split; [exact Hload|].
  rewrite (lambda_handler_configured _ _ _ _ _ _ _ Hb Hb' Hc Hc').
  rewrite run_cleanup_cases, Hload. reflexivity.
Qed.

Lemma empty_retention_policies_is_success_witness :
  lambda_handler first_folder_unlistable json_loads_reference sample_utcnow
    (sample_environ ("{" ++ quoted "retention_policies" ++ ":[]}")) []
  = ({| statusCode := 200;
        body := NoPoliciesBody "No retention policies configured" [] |},
     []).
Proof.
  apply (empty_retention_policies_is_success first_folder_unlistable
           json_loads_reference sample_utcnow
           (sample_environ ("{" ++ quoted "retention_policies" ++ ":[]}"))
           "test-bucket" ("{" ++ quoted "retention_policies" ++ ":[]}")%string
           [("retention_policies", VList [])] (VList []) [] []).
  - reflexivity.
  - discriminate.
  - reflexivity.
  - discriminate.
  - vm_compute. reflexivity.
  - reflexivity.
  - left. reflexivity.
Defined.

(** With a non-empty list of policies loaded, the handler answers 200 with
    the summary whatever happens in the folders: [results] has one entry per
    policy, in the order of the configuration, each naming its policy's
    folder; every folder has been listed; [total_deleted] is the sum of the
    [deleted] counts and [total_failed] the sum of the [failed] counts of the
    folders that completed. *)
Theorem one_result_per_policy :
  forall (s3_client : S3Client) (json_loads : string -> result value)
         (utcnow : trace -> Z) (environ : Environ) (bucket config : string)
         (policies : list BackupRetentionPolicy) (tr tr0 : trace),
    BUCKET_NAME environ = Some bucket -> bucket <> "" ->
    RETENTION_CONFIG environ = Some config -> config <> "" ->
    load_retention_config s3_client json_loads config tr = (Ok policies, tr0) ->
    policies <> [] ->
    exists results tr',
      lambda_handler s3_client json_loads utcnow environ tr
      = ({| statusCode := 200;
            body := SummaryBody "Backup cleanup completed"
                      (fst (completed_totals results))
                      (snd (completed_totals results))
                      results |},
         tr') /\
      map result_folder results = map folder policies /\
      (forall policy, In policy policies ->
                      In (ListObjectsV2 bucket (folder policy)) tr').
Proof.
  intros s3_client json_loads utcnow environ bucket config policies tr tr0
         Hb Hb' Hc Hc' Hload Hsome.
  exists (fst (process_policies s3_client utcnow bucket policies [] tr0)),
         (snd (process_policies s3_client utcnow bucket policies [] tr0)).
  split; [|split].
  - rewrite (lambda_handler_configured _ _ _ _ _ _ _ Hb Hb' Hc Hc').
    rewrite run_cleanup_cases, Hload.
    destruct policies as [|policy rest]; [contradiction Hsome; reflexivity|].
    destruct (summed_totals
                (fst (process_policies s3_client utcnow bucket (policy :: rest)
                        [] tr0))) as [Hd Hf].
    rewrite Hd, Hf. reflexivity.
  - apply process_policies_folders.
  - apply process_policies_lists_all.
Qed.

Lemma one_result_per_policy_witness :
  lambda_handler unlistable_then_denied json_loads_reference sample_utcnow
    (sample_environ listable_folders_config) []
  = ({| statusCode := 200;
        body := SummaryBody "Backup cleanup completed" 2 4
                  [FolderDone (VStr "b/") 5 2 1 1;
                   FolderDone (VStr "c/") 5 4 1 3] |},
     [ListObjectsV2 "test-bucket" (VStr "b/");
      DeleteObjects "test-bucket" ["backup-4.zip"; "backup-5.zip"];
      ListObjectsV2 "test-bucket" (VStr "c/");
      DeleteObjects "test-bucket"
        ["backup-2.zip"; "backup-3.zip"; "backup-4.zip"; "backup-5.zip"]]).
Proof.
  destruct (one_result_per_policy unlistable_then_denied json_loads_reference
              sample_utcnow (sample_environ listable_folders_config)
              "test-bucket" listable_folders_config
              [retention_policy (VStr "b/") 30 2; retention_policy (VStr "c/") 7 1]
              [] [])
    as (results & tr' & Hrun & _ & _).
  - reflexivity.
  - discriminate.
  - reflexivity.
  - discriminate.
  - vm_compute. reflexivity.
  - discriminate.
  - assert (Hres : (SummaryBody "Backup cleanup completed"
                      (fst (completed_totals results))
                      (snd (completed_totals results)) results, tr')
                   = (SummaryBody "Backup cleanup completed" 2 4
                        [FolderDone (VStr "b/") 5 2 1 1;
                         FolderDone (VStr "c/") 5 4 1 3],
                      [ListObjectsV2 "test-bucket" (VStr "b/");
                       DeleteObjects "test-bucket" ["backup-4.zip"; "backup-5.zip"];
                       ListObjectsV2 "test-bucket" (VStr "c/");
                       DeleteObjects "test-bucket"
                         ["backup-2.zip"; "backup-3.zip"; "backup-4.zip";
                          "backup-5.zip"]])).
    { assert (Hcomputed :
        lambda_handler unlistable_then_denied json_loads_reference sample_utcnow
          (sample_environ listable_folders_config) []
        = ({| statusCode := 200;
              body := SummaryBody "Backup cleanup completed" 2 4
                        [FolderDone (VStr "b/") 5 2 1 1;
                         FolderDone (VStr "c/") 5 4 1 3] |},
           [ListObjectsV2 "test-bucket" (VStr "b/");
            DeleteObjects "test-bucket" ["backup-4.zip"; "backup-5.zip"];
            ListObjectsV2 "test-bucket" (VStr "c/");
            DeleteObjects "test-bucket"
              ["backup-2.zip"; "backup-3.zip"; "backup-4.zip"; "backup-5.zip"]]))
        by (vm_compute; reflexivity).
      rewrite Hrun in Hcomputed. injection Hcomputed as H1 H2 H3 H4.
      rewrite H1, H2, H3, H4. reflexivity. }
    rewrite Hrun. injection Hres as H1 H2 H3 H4.
    rewrite H1, H2, H3, H4. reflexivity.
Defined.

(** The handler never lists or deletes in a bucket other than
    [BUCKET_NAME]: its calls are at most one [get_object] that fetches the
    configuration, followed by listings and deletions that are all in
    [BUCKET_NAME]. *)
Theorem handler_works_on_its_bucket_only :
  forall (s3_client : S3Client) (json_loads : string -> result value)
         (utcnow : trace -> Z) (environ : Environ) (tr : trace),
  exists fetch work,
    snd (lambda_handler s3_client json_loads utcnow environ tr)
    = tr ++ fetch ++ work /\
    (fetch = [] \/ exists b k, fetch = [GetObject b k]) /\
    Forall (works_on_bucket (match BUCKET_NAME environ with
                             | Some bucket => bucket
                             | None => ""
                             end)) work.
Proof.
  intros s3_client json_loads utcnow environ tr.
  unfold lambda_handler.
  destruct (not_set (BUCKET_NAME environ));
    [exists [], []; cbn; rewrite app_nil_r; auto|].
  destruct (not_set (RETENTION_CONFIG environ));
    [exists [], []; cbn; rewrite app_nil_r; auto|].
  set (bucket := match BUCKET_NAME environ with Some b => b | None => "" end).
  set (config := match RETENTION_CONFIG environ with Some c => c | None => "" end).
  rewrite run_cleanup_cases.
  unfold load_retention_config, bind.
  destruct (read_config_data s3_client json_loads config tr)
    as [outcome tr0] eqn:Hread.
  assert (Hfetch : exists fetch,
             tr0 = tr ++ fetch /\
             (fetch = [] \/ exists b k, fetch = [GetObject b k])).
  { destruct (read_config_data_trace s3_client json_loads config tr)
      as (outcome' & Htrace).
    rewrite Hread in Htrace. injection Htrace as _ ->.
    destruct (prefix "s3://" config).
    - eexists. split; [reflexivity|]. right. eauto.
    - exists []. rewrite app_nil_r. auto. }
  destruct Hfetch as (fetch & Htr0 & Hfetch).
  destruct outcome as [config_data|e].
  - unfold lift.
    destruct (parse_policies config_data) as [[|policy rest]|e].
    + exists fetch, []. cbn [fst snd]. rewrite app_nil_r. auto.
    + destruct (process_policies_calls s3_client utcnow bucket (policy :: rest)
                  [] tr0) as (work & Hwork & Hall).
      exists fetch, work. cbn [fst snd]. rewrite Hwork, Htr0, <- app_assoc. auto.
    + exists fetch, []. cbn [fst snd]. rewrite app_nil_r. auto.
  - exists fetch, []. cbn [fst snd]. rewrite app_nil_r. auto.
Qed.

(** ** How old a marked object is *)

(** An object is only marked when at least [days_to_keep + 1] full days
    (of 86400 seconds) lie between its modification and [now]; with
    [days_to_keep >= 0], an object whose timestamp is ahead of [now] is
    therefore never marked. *)
Theorem marked_objects_are_old_enough :
  forall (now : Z) (objects : list BackupObject) (f : value) (d k : Z),
  exists marked : list BackupObject,
    get_objects_to_delete now objects (retention_policy f d k)
    = Ok (map Key marked) /\
    incl marked objects /\
    (forall obj,
        In obj marked ->
        ((d + 1) * microseconds_per_day <= now - LastModified obj)%Z) /\
    ((0 <= d)%Z ->
     forall obj, In obj marked -> (LastModified obj < now)%Z).
Proof.
  intros now objects f d k.
  eexists. split; [apply get_objects_to_delete_integers|].
  assert (Hold : forall obj,
             In obj (filter (too_old now d)
                       (skipn (Z.to_nat k) (sorted_objects objects))) ->
             ((d + 1) * microseconds_per_day <= now - LastModified obj)%Z).
  { intros obj Hobj. apply filter_In in Hobj. destruct Hobj as [_ Hage].
    unfold too_old in Hage. apply Z.gtb_lt in Hage.
    pose proof (age_days_whole_days now obj) as [Hlow _].
    assert (Hpos : (0 < microseconds_per_day)%Z) by reflexivity.
    nia. }
  split; [|split].
  - intros obj Hobj. apply filter_In in Hobj. destruct Hobj as [Hobj _].
    apply (Permutation_in _ (sorted_objects_perm objects)).
    apply (in_skipn _ _ _ Hobj).
  - exact Hold.
  - intros Hd obj Hobj. specialize (Hold obj Hobj).
    assert (Hpos : (0 < microseconds_per_day)%Z) by reflexivity.
    nia.
Qed.
